(** * Realtime messaging page: channel naming, relevance filter, typing presence

    A shallow embedding of [client/src/pages/messages.tsx] (the [Messages]
    React component) and the properties of its realtime core.

    - JavaScript strings are sequences of UTF-16 code units ([list N]);
      [sort], [trim] and truthiness follow ECMAScript on them.
    - The component's [useState]/[useRef] cells, together with the parts of the
      environment the handlers act on (pending timers, subscribed realtime
      channels, outgoing broadcasts, query invalidations, create-message
      requests), form one explicit [State] that every handler transforms.
    - A closure is the data it captured: a timer callback carries the
      [currentUser] and [selectedUserId] of the render that created it, a
      channel carries those its two handlers were registered with.
    - The subscription effect follows React: when a dependency changes, the
      cleanup of the previous run executes before the body runs again.
    - Time is a logical clock in milliseconds; [setTimeout] registers a timer
      with a deadline and [elapse] lets time pass, running every timer that
      becomes due, at its deadline.
    - The realtime client is the list of channels on which [subscribe] was
      called and that were not removed; [supabase.channel(name).send(...)] in
      [sendTypingEvent] is a publication on topic [name]. *)

From Stdlib Require Import List Bool PeanoNat NArith Lia String Ascii.
Import ListNotations.
Local Open Scope N_scope.

(* ================================================================== *)
(** ** JavaScript strings *)

Module JsString.

Definition jsstring := list N.

(** A string literal of the source, as code units. *)
Definition js (s : string) : jsstring :=
  map N_of_ascii (list_ascii_of_string s).

Fixpoint eqb (a b : jsstring) : bool :=
  match a, b with
  | [], [] => true
  | x :: a', y :: b' => (x =? y) && eqb a' b'
  | _, _ => false
  end.

(** [===] on two values that may be [null]/[undefined]. *)
Definition opt_eqb (a b : option jsstring) : bool :=
  match a, b with
  | None, None => true
  | Some x, Some y => eqb x y
  | _, _ => false
  end.

(** Lexicographic comparison of code units: the order of [<] on strings. *)
Fixpoint compare (a b : jsstring) : comparison :=
  match a, b with
  | [], [] => Eq
  | [], _ :: _ => Lt
  | _ :: _, [] => Gt
  | x :: a', y :: b' =>
      match N.compare x y with
      | Eq => compare a' b'
      | c => c
      end
  end.

Definition ltb (a b : jsstring) : bool :=
  match compare a b with Lt => true | _ => false end.

(** [Array.prototype.sort()] without a comparator: a stable sort by [<]. *)
Fixpoint insert (x : jsstring) (l : list jsstring) : list jsstring :=
  match l with
  | [] => [x]
  | y :: l' => if ltb y x then y :: insert x l' else x :: y :: l'
  end.

Definition sort (l : list jsstring) : list jsstring :=
  fold_right insert [] l.

(** [l[i]] inside a template literal: a missing element prints as
    ["undefined"]. *)
Definition index (l : list jsstring) (i : nat) : jsstring :=
  nth i l (js "undefined").

(** WhiteSpace and LineTerminator code units, the ones [trim] strips. *)
Definition is_white_space (c : N) : bool :=
  ((9 <=? c) && (c <=? 13))
  || (c =? 32) || (c =? 160) || (c =? 5760)
  || ((8192 <=? c) && (c <=? 8202))
  || (c =? 8232) || (c =? 8233) || (c =? 8239) || (c =? 8287)
  || (c =? 12288) || (c =? 65279).

Fixpoint trim_start (s : jsstring) : jsstring :=
  match s with
  | [] => []
  | c :: s' => if is_white_space c then trim_start s' else s
  end.

Definition trim (s : jsstring) : jsstring :=
  rev (trim_start (rev (trim_start s))).

(** Truthiness of a string: every string but the empty one. *)
Definition truthy (s : jsstring) : bool :=
  match s with [] => false | _ :: _ => true end.

(** Truthiness of [string | null]. *)
Definition opt_truthy (o : option jsstring) : bool :=
  match o with Some s => truthy s | None => false end.

End JsString.

Import JsString.

(* ================================================================== *)
(** ** Channel topic *)

(** [const userIds = [currentUser.id, selectedUserId].sort();
     const channelName = `chat-${userIds[0]}-${userIds[1]}`;] *)
Definition channelName (userId peerId : jsstring) : jsstring :=
  let userIds := sort [userId; peerId] in
  js "chat-" ++ index userIds 0 ++ js "-" ++ index userIds 1.

(* ================================================================== *)
(** ** Component state and environment *)

(** The closure given to [setTimeout].  A closure captures the [currentUser]
    and [selectedUserId] of the render that created it. *)
Inductive Callback :=
| HideTyping
    (* () => { setIsTyping(false); } *)
| StopTyping (user peer : option jsstring).
    (* () => { sendTypingEvent(false); } *)

Record Timer := mkTimer {
  timer_id : nat;
  timer_due : N;
  timer_cb : Callback
}.

(** A subscribed realtime channel, with the user and peer captured by the two
    handlers registered on it. *)
Record Channel := mkChannel {
  chan_id : nat;
  chan_topic : jsstring;
  chan_user : jsstring;
  chan_peer : jsstring
}.

(** An outgoing [{type: 'broadcast', event: 'typing', payload: {userId, isTyping}}]. *)
Record Broadcast := mkBroadcast {
  sent_at : N;
  topic : jsstring;
  payload_userId : jsstring;
  payload_isTyping : bool
}.

Inductive QueryKey :=
| MessagesKey (peer : option jsstring)     (* ['messages', selectedUserId] *)
| ConversationsKey.                        (* ['conversations'] *)

Inductive ChannelOp :=
| Subscribed (id : nat)
| Removed (id : nat).

Record State := mkState {
  (* useAuth() *)
  currentUser : option jsstring;
  (* useState / useRef *)
  selectedUserId : option jsstring;
  messageInput : jsstring;
  isTyping : bool;
  typingTimeoutRef : option nat;
  (* the channel held by the cleanup closure of the mounted subscription effect *)
  subscription : option Channel;
  (* event loop *)
  now : N;
  timers : list Timer;
  nextTimerId : nat;
  (* realtime client *)
  channels : list Channel;
  nextChannelId : nat;
  channelLog : list ChannelOp;
  sent : list Broadcast;
  (* query client and api *)
  invalidated : list QueryKey;
  requests : list (jsstring * jsstring)
}.

Definition set_currentUser (v : option jsstring) (s : State) : State :=
  mkState v (selectedUserId s) (messageInput s) (isTyping s)
    (typingTimeoutRef s) (subscription s) (now s) (timers s) (nextTimerId s)
    (channels s) (nextChannelId s) (channelLog s) (sent s) (invalidated s)
    (requests s).

Definition set_selectedUserId (v : option jsstring) (s : State) : State :=
  mkState (currentUser s) v (messageInput s) (isTyping s)
    (typingTimeoutRef s) (subscription s) (now s) (timers s) (nextTimerId s)
    (channels s) (nextChannelId s) (channelLog s) (sent s) (invalidated s)
    (requests s).

Definition set_messageInput (v : jsstring) (s : State) : State :=
  mkState (currentUser s) (selectedUserId s) v (isTyping s)
    (typingTimeoutRef s) (subscription s) (now s) (timers s) (nextTimerId s)
    (channels s) (nextChannelId s) (channelLog s) (sent s) (invalidated s)
    (requests s).

Definition set_isTyping (v : bool) (s : State) : State :=
  mkState (currentUser s) (selectedUserId s) (messageInput s) v
    (typingTimeoutRef s) (subscription s) (now s) (timers s) (nextTimerId s)
    (channels s) (nextChannelId s) (channelLog s) (sent s) (invalidated s)
    (requests s).

Definition set_typingTimeoutRef (v : option nat) (s : State) : State :=
  mkState (currentUser s) (selectedUserId s) (messageInput s) (isTyping s)
    v (subscription s) (now s) (timers s) (nextTimerId s)
    (channels s) (nextChannelId s) (channelLog s) (sent s) (invalidated s)
    (requests s).

Definition set_subscription (v : option Channel) (s : State) : State :=
  mkState (currentUser s) (selectedUserId s) (messageInput s) (isTyping s)
    (typingTimeoutRef s) v (now s) (timers s) (nextTimerId s)
    (channels s) (nextChannelId s) (channelLog s) (sent s) (invalidated s)
    (requests s).

Definition set_now (v : N) (s : State) : State :=
  mkState (currentUser s) (selectedUserId s) (messageInput s) (isTyping s)
    (typingTimeoutRef s) (subscription s) v (timers s) (nextTimerId s)
    (channels s) (nextChannelId s) (channelLog s) (sent s) (invalidated s)
    (requests s).

Definition set_timers (v : list Timer) (s : State) : State :=
  mkState (currentUser s) (selectedUserId s) (messageInput s) (isTyping s)
    (typingTimeoutRef s) (subscription s) (now s) v (nextTimerId s)
    (channels s) (nextChannelId s) (channelLog s) (sent s) (invalidated s)
    (requests s).

Definition set_nextTimerId (v : nat) (s : State) : State :=
  mkState (currentUser s) (selectedUserId s) (messageInput s) (isTyping s)
    (typingTimeoutRef s) (subscription s) (now s) (timers s) v
    (channels s) (nextChannelId s) (channelLog s) (sent s) (invalidated s)
    (requests s).

Definition set_channels (v : list Channel) (s : State) : State :=
  mkState (currentUser s) (selectedUserId s) (messageInput s) (isTyping s)
    (typingTimeoutRef s) (subscription s) (now s) (timers s) (nextTimerId s)
    v (nextChannelId s) (channelLog s) (sent s) (invalidated s)
    (requests s).

Definition set_nextChannelId (v : nat) (s : State) : State :=
  mkState (currentUser s) (selectedUserId s) (messageInput s) (isTyping s)
    (typingTimeoutRef s) (subscription s) (now s) (timers s) (nextTimerId s)
    (channels s) v (channelLog s) (sent s) (invalidated s)
    (requests s).

Definition set_channelLog (v : list ChannelOp) (s : State) : State :=
  mkState (currentUser s) (selectedUserId s) (messageInput s) (isTyping s)
    (typingTimeoutRef s) (subscription s) (now s) (timers s) (nextTimerId s)
    (channels s) (nextChannelId s) v (sent s) (invalidated s)
    (requests s).

Definition set_sent (v : list Broadcast) (s : State) : State :=
  mkState (currentUser s) (selectedUserId s) (messageInput s) (isTyping s)
    (typingTimeoutRef s) (subscription s) (now s) (timers s) (nextTimerId s)
    (channels s) (nextChannelId s) (channelLog s) v (invalidated s)
    (requests s).

Definition set_invalidated (v : list QueryKey) (s : State) : State :=
  mkState (currentUser s) (selectedUserId s) (messageInput s) (isTyping s)
    (typingTimeoutRef s) (subscription s) (now s) (timers s) (nextTimerId s)
    (channels s) (nextChannelId s) (channelLog s) (sent s) v
    (requests s).

Definition set_requests (v : list (jsstring * jsstring)) (s : State) : State :=
  mkState (currentUser s) (selectedUserId s) (messageInput s) (isTyping s)
    (typingTimeoutRef s) (subscription s) (now s) (timers s) (nextTimerId s)
    (channels s) (nextChannelId s) (channelLog s) (sent s) (invalidated s)
    v.

(** The component as first rendered for user [u]: no peer selected, empty
    draft, no timer, no channel. *)
Definition init (u : option jsstring) : State :=
  mkState u None [] false None None 0 [] 1 [] 1 [] [] [] [].

(* ------------------------------------------------------------------ *)
(** *** Environment primitives *)

(** [setTimeout(cb, delay)]: registers a timer and returns its handle. *)
Definition setTimeout (cb : Callback) (delay : N) (s : State) : nat * State :=
  let id := nextTimerId s in
  (id, set_nextTimerId (S id)
         (set_timers (timers s ++ [mkTimer id (now s + delay) cb]) s)).

(** [clearTimeout(id)]: a no-op when the timer has fired or was cleared. *)
Definition clearTimeout (id : nat) (s : State) : State :=
  set_timers (filter (fun t => negb (Nat.eqb (timer_id t) id)) (timers s)) s.

(** [if (typingTimeoutRef.current) clearTimeout(typingTimeoutRef.current)];
    a timer handle, once stored, is truthy. *)
Definition clearTypingTimeout (s : State) : State :=
  match typingTimeoutRef s with
  | Some id => clearTimeout id s
  | None => s
  end.

(** [queryClient.invalidateQueries({ queryKey })] *)
Definition invalidateQueries (k : QueryKey) (s : State) : State :=
  set_invalidated (invalidated s ++ [k]) s.

(** [supabase.channel(name).on(...).on(...).subscribe(...)] *)
Definition subscribeChannel (name user peer : jsstring) (s : State)
  : Channel * State :=
  let ch := mkChannel (nextChannelId s) name user peer in
  (ch, set_channelLog (channelLog s ++ [Subscribed (chan_id ch)])
         (set_nextChannelId (S (nextChannelId s))
            (set_channels (channels s ++ [ch]) s))).

(** [supabase.removeChannel(channel)] *)
Definition removeChannel (ch : Channel) (s : State) : State :=
  set_channelLog (channelLog s ++ [Removed (chan_id ch)])
    (set_channels
       (filter (fun c => negb (Nat.eqb (chan_id c) (chan_id ch))) (channels s))
       s).

(** [api.sendMessage(receiverId, content)] *)
Definition sendMessage (receiverId content : jsstring) (s : State) : State :=
  set_requests (requests s ++ [(receiverId, content)]) s.

(* ------------------------------------------------------------------ *)
(** *** The component's functions *)

(** [sendTypingEvent] (lines 187-198), as closed over by a render with the
    given [currentUser] and [selectedUserId]. *)
Definition sendTypingEvent (user peer : option jsstring) (typing : bool)
    (s : State) : State :=
  match user, peer with
  | Some u, Some p =>
      if truthy p
      then set_sent (sent s ++ [mkBroadcast (now s) (channelName u p) u typing]) s
      else s
  | _, _ => s
  end.

(** [handleInputChange] (lines 201-221), with [value = e.target.value]. *)
Definition handleInputChange (value : jsstring) (s : State) : State :=
  let user := currentUser s in
  let peer := selectedUserId s in
  let s := set_messageInput value s in
  if Nat.ltb 0 (List.length value) then
    let s := sendTypingEvent user peer true s in
    let s := clearTypingTimeout s in
    let '(id, s) := setTimeout (StopTyping user peer) 2000 s in
    set_typingTimeoutRef (Some id) s
  else
    sendTypingEvent user peer false s.

(** [handleSendMessage] (lines 167-177). *)
Definition handleSendMessage (s : State) : State :=
  match selectedUserId s with
  | Some peer =>
      if truthy (trim (messageInput s)) && truthy peer then
        let s := sendTypingEvent (currentUser s) (selectedUserId s) false s in
        sendMessage peer (trim (messageInput s)) s
      else s
  | None => s
  end.

(** [sendMessageMutation]'s [onSuccess] (lines 71-75). *)
Definition onSuccess (s : State) : State :=
  let s := invalidateQueries (MessagesKey (selectedUserId s)) s in
  let s := invalidateQueries ConversationsKey s in
  set_messageInput [] s.

(** The [postgres_changes] handler registered on channel [ch]
    (lines 112-127), on [payload.new] with the given [sender_id] and
    [receiver_id]. *)
Definition isRelevant (ch : Channel) (sender_id receiver_id : jsstring) : bool :=
  (eqb sender_id (chan_user ch) && eqb receiver_id (chan_peer ch))
  || (eqb sender_id (chan_peer ch) && eqb receiver_id (chan_user ch)).

Definition onInsert (ch : Channel) (sender_id receiver_id : jsstring)
    (s : State) : State :=
  if isRelevant ch sender_id receiver_id then
    let s := invalidateQueries (MessagesKey (Some (chan_peer ch))) s in
    invalidateQueries ConversationsKey s
  else s.

(** The [broadcast] handler for event ['typing'] registered on channel [ch]
    (lines 130-148), on [payload.payload = { userId, isTyping: typing }]. *)
Definition onTyping (ch : Channel) (userId : jsstring) (typing : bool)
    (s : State) : State :=
  if eqb userId (chan_peer ch) then
    let s := set_isTyping typing s in
    let s := if typing then clearTypingTimeout s else s in
    if typing then
      let '(id, s) := setTimeout HideTyping 3000 s in
      set_typingTimeoutRef (Some id) s
    else s
  else s.

(** Body of the subscription effect (lines 93-151). *)
Definition subscribeEffect (s : State) : State :=
  match currentUser s, selectedUserId s with
  | Some u, Some p =>
      if truthy p then
        let '(ch, s) := subscribeChannel (channelName u p) u p s in
        set_subscription (Some ch) s
      else set_subscription None s
  | _, _ => set_subscription None s
  end.

(** The cleanup returned by the effect (lines 154-160), if it returned
    one. *)
Definition cleanupEffect (s : State) : State :=
  match subscription s with
  | Some ch =>
      let s := clearTypingTimeout s in
      let s := removeChannel ch s in
      set_subscription None s
  | None => s
  end.

(** A change of one of the effect's dependencies: the previous cleanup runs,
    then the effect body runs again. *)
Definition rerunEffect (s : State) : State :=
  subscribeEffect (cleanupEffect s).

(** [setSelectedUserId(v)]: nothing re-renders when the value is the same. *)
Definition setSelectedUserId (v : option jsstring) (s : State) : State :=
  if opt_eqb v (selectedUserId s) then s
  else rerunEffect (set_selectedUserId v s).

(* ------------------------------------------------------------------ *)
(** *** Timers firing *)

Definition runCallback (cb : Callback) (s : State) : State :=
  match cb with
  | HideTyping => set_isTyping false s
  | StopTyping user peer => sendTypingEvent user peer false s
  end.

Fixpoint insertTimer (t : Timer) (l : list Timer) : list Timer :=
  match l with
  | [] => [t]
  | t' :: l' =>
      if timer_due t <? timer_due t' then t :: l else t' :: insertTimer t l'
  end.

(** Due timers run by deadline, in registration order among equal deadlines. *)
Definition sortTimers (l : list Timer) : list Timer :=
  fold_left (fun acc t => insertTimer t acc) l [].

Definition fire (s : State) (t : Timer) : State :=
  runCallback (timer_cb t) (set_now (N.max (now s) (timer_due t)) s).

(** [dt] milliseconds pass: every timer whose deadline is reached runs, at
    its deadline.  No callback of this component sets or clears a timer, so
    the due timers are taken out of the pending ones beforehand. *)
Definition elapse (dt : N) (s : State) : State :=
  let t1 := now s + dt in
  let due := filter (fun t => timer_due t <=? t1) (timers s) in
  let rest := filter (fun t => negb (timer_due t <=? t1)) (timers s) in
  set_now t1 (fold_left fire (sortTimers due) (set_timers rest s)).

(* ------------------------------------------------------------------ *)
(** *** Events *)

Inductive Event :=
| AuthChange (u : option jsstring)
| SelectUser (v : option jsstring)
| InputChange (value : jsstring)
| SendClick
| SendSucceeded
| Inserted (sender_id receiver_id : jsstring)
| TypingEvent (on_topic userId : jsstring) (typing : bool)
| Elapse (dt : N).

Definition step (s : State) (e : Event) : State :=
  match e with
  | AuthChange u => rerunEffect (set_currentUser u s)
  | SelectUser v => setSelectedUserId v s
  | InputChange value => handleInputChange value s
  | SendClick => handleSendMessage s
  | SendSucceeded => onSuccess s
  | Inserted sender_id receiver_id =>
      fold_left (fun s ch => onInsert ch sender_id receiver_id s)
        (channels s) s
  | TypingEvent on_topic userId typing =>
      fold_left (fun s ch => onTyping ch userId typing s)
        (filter (fun ch => eqb (chan_topic ch) on_topic) (channels s)) s
  | Elapse dt => elapse dt s
  end.

Definition run (s : State) (es : list Event) : State := fold_left step es s.

(* ------------------------------------------------------------------ *)
(** *** Keyboard, URL parameter, queries and the derived conversation *)

(** [handleKeyPress] (lines 179-184) on a key event with the given [e.key]
    and [e.shiftKey]; the boolean tells whether [e.preventDefault()] was
    called. *)
Definition handleKeyPress (key : jsstring) (shiftKey : bool) (s : State)
  : bool * State :=
  if eqb key (js "Enter") && negb shiftKey
  then (true, handleSendMessage s)
  else (false, s).

(** The effect on [location] (lines 79-86), with
    [targetUserId = searchParams.get('user')]. *)
Definition locationEffect (targetUserId : option jsstring) (s : State)
  : State :=
  if opt_truthy targetUserId then setSelectedUserId targetUserId s else s.

(** [!!currentUser]: the user object is truthy whenever it is there. *)
Definition loggedIn (s : State) : bool :=
  match currentUser s with Some _ => true | None => false end.

(** [enabled] of the conversations query (line 50). *)
Definition conversationsEnabled (s : State) : bool := loggedIn s.

(** [enabled] of the messages query and of the profile query
    (lines 57 and 64). *)
Definition messagesEnabled (s : State) : bool :=
  opt_truthy (selectedUserId s) && loggedIn s.

(** [queryFn] of the messages query (line 56): the peer whose messages are
    fetched, or [None] for [Promise.resolve([])]. *)
Definition messagesQueryFn (s : State) : option jsstring :=
  match selectedUserId s with
  | Some p => if truthy p then Some p else None
  | None => None
  end.

(** [disabled] of the send button (line 445). *)
Definition sendDisabled (isPending : bool) (s : State) : bool :=
  negb (truthy (trim (messageInput s))) || isPending.

Section Conversations.

(** Rows of the conversations query and the profile of the profile query;
    the component reads [user?.id] of a row and nothing else here. *)
Variables Profile Message : Type.
Variable profile_id : Profile -> jsstring.

Record Conversation := mkConversation {
  conv_user : option Profile;
  conv_lastMessage : option Message
}.

(** [c => c.user?.id === selectedUserId] *)
Definition isConversationWith (sel : jsstring) (c : Conversation) : bool :=
  match conv_user c with
  | Some usr => eqb (profile_id usr) sel
  | None => false
  end.

(** [selectedConversation] (lines 224-229). *)
Definition selectedConversation (selected : option jsstring)
    (conversations : list Conversation)
    (selectedUserProfile : option Profile) : option Conversation :=
  match selected with
  | Some sel =>
      if truthy sel then
        match find (isConversationWith sel) conversations with
        | Some c => Some c
        | None =>
            match selectedUserProfile with
            | Some prof => Some (mkConversation (Some prof) None)
            | None => None
            end
        end
      else None
  | None => None
  end.

(** The chat area is rendered when [selectedUserId && selectedConversation]
    (line 329). *)
Definition chatShown (selected : option jsstring)
    (conversations : list Conversation)
    (selectedUserProfile : option Profile) : bool :=
  opt_truthy selected
  && match selectedConversation selected conversations selectedUserProfile
     with Some _ => true | None => false end.

End Conversations.

(* ================================================================== *)
(** ** Invariants, traces and sample states used in the statements *)

(** Every pending timer is the one whose handle [typingTimeoutRef] holds;
    hence at most one timer is pending. *)
Definition timers_in_ref (s : State) : Prop :=
  match timers s with
  | [] => True
  | [t] => typingTimeoutRef s = Some (timer_id t)
  | _ :: _ :: _ => False
  end.

(** Replaying the log of channel operations: [Some live] when no channel was
    ever subscribed while another one was live and only the live channel was
    ever removed; [live] is then the channel left live, if any. *)
Definition applyOp (live : option (option nat)) (op : ChannelOp)
  : option (option nat) :=
  match live, op with
  | Some None, Subscribed i => Some (Some i)
  | Some (Some j), Removed i => if Nat.eqb i j then Some None else None
  | _, _ => None
  end.

Definition replay (log : list ChannelOp) : option (option nat) :=
  fold_left applyOp log (Some None).

(** The realtime client's live channels are exactly the channel held by the
    mounted effect. *)
Definition single_handle (s : State) : Prop :=
  channels s = match subscription s with Some ch => [ch] | None => [] end
  /\ replay (channelLog s) = Some (option_map chan_id (subscription s)).

Definition Inv (s : State) : Prop := timers_in_ref s /\ single_handle s.

(** The mounted effect holds the channel of the current conversation: the one
    subscribed for the current user and the selected peer, if both are
    there. *)
Definition subscription_current (s : State) : Prop :=
  match currentUser s, selectedUserId s with
  | Some u, Some p =>
      if truthy p
      then exists id, subscription s = Some (mkChannel id (channelName u p) u p)
      else subscription s = None
  | _, _ => subscription s = None
  end.

(** Same user, same selected peer, same mounted effect. *)
Definition same_session (s s' : State) : Prop :=
  currentUser s' = currentUser s
  /\ selectedUserId s' = selectedUserId s
  /\ subscription s' = subscription s.

(** What an incoming realtime event may change: the remote-typing flag, the
    timer handle with the pending timers, and the invalidations. *)
Definition same_but_presence (s s' : State) : Prop :=
  currentUser s' = currentUser s
  /\ selectedUserId s' = selectedUserId s
  /\ messageInput s' = messageInput s
  /\ subscription s' = subscription s
  /\ now s' = now s
  /\ channels s' = channels s
  /\ channelLog s' = channelLog s
  /\ sent s' = sent s
  /\ requests s' = requests s.

(** A typing session: after a first input change, further input changes, each
    one [fst k] milliseconds after the previous one, with value [snd k]. *)
Definition keystrokes (ks : list (N * jsstring)) : list Event :=
  flat_map (fun k => [Elapse (fst k); InputChange (snd k)]) ks.

(** Time of the last input change of a session whose first one is at [t]. *)
Definition lastKeystroke (t : N) (ks : list (N * jsstring)) : N :=
  fold_left (fun t k => t + fst k) ks t.

(** What a typing session sends after its first input change at time [t]:
    before each further input change the [typing: false] of the idle timer,
    if 2 seconds or more have passed since the previous one, then the
    [typing: true] of the input change. *)
Fixpoint typingLog (u p : jsstring) (t : N) (ks : list (N * jsstring))
  : list Broadcast :=
  match ks with
  | [] => []
  | k :: ks' =>
      (if 2000 <=? fst k
       then [mkBroadcast (t + 2000) (channelName u p) u false]
       else [])
      ++ mkBroadcast (t + fst k) (channelName u p) u true
           :: typingLog u p (t + fst k) ks'
  end.

(** One [typing: true] broadcast per input change, stamped with its time. *)
Fixpoint typingTrueAt (u p : jsstring) (t : N) (ks : list (N * jsstring))
  : list Broadcast :=
  match ks with
  | [] => []
  | k :: ks' =>
      mkBroadcast (t + fst k) (channelName u p) u true
        :: typingTrueAt u p (t + fst k) ks'
  end.

(** The idle timer started by the input change at time [t] is the only
    pending timer. *)
Definition idle_armed (u p : jsstring) (t : N) (s : State) : Prop :=
  currentUser s = Some u /\ selectedUserId s = Some p /\ p <> []
  /\ now s < t + 2000
  /\ exists id,
       timers s = [mkTimer id (t + 2000) (StopTyping (Some u) (Some p))]
       /\ typingTimeoutRef s = Some id.

(** Further [typing: true] broadcasts of [peer] on topic [on_topic], each one
    [gap] milliseconds after the previous event. *)
Definition typingBurst (on_topic peer : jsstring) (gaps : list N)
  : list Event :=
  flat_map (fun gap => [Elapse gap; TypingEvent on_topic peer true]) gaps.

(** The expiry timer started at time [t] is the only pending timer and the
    indicator is shown. *)
Definition expiry_armed (t : N) (s : State) : Prop :=
  isTyping s = true
  /\ now s < t + 3000
  /\ exists id,
       timers s = [mkTimer id (t + 3000) HideTyping]
       /\ typingTimeoutRef s = Some id.

(** The state of U1, talking to U2, one second after U2's [typing: true]. *)
Definition remoteTypingSince1s : State :=
  run (init (Some (js "U1")))
      [SelectUser (Some (js "U2"));
       TypingEvent (js "chat-U1-U2") (js "U2") true;
       Elapse 1000].

(** U1, talking to U2, typed "hi" half a second ago. *)
Definition typedHalfSecondAgo : State :=
  run (init (Some (js "U1")))
      [SelectUser (Some (js "U2")); InputChange (js "hi"); Elapse 500].

(** U1, talking to U2, typed at t = 0 and at t = 1000; it is t = 1500. *)
Definition typedTwice : State :=
  run (init (Some (js "U1")))
      [SelectUser (Some (js "U2")); InputChange (js "h"); Elapse 1000;
       InputChange (js "hi"); Elapse 500].

(** U1, talking to U2, got U2's [typing: true] at t = 0 and at t = 1000; it
    is t = 2000. *)
Definition remoteTypingTwice : State :=
  run (init (Some (js "U1")))
      [SelectUser (Some (js "U2"));
       TypingEvent (js "chat-U1-U2") (js "U2") true; Elapse 1000;
       TypingEvent (js "chat-U1-U2") (js "U2") true; Elapse 1000].

(** U1, talking to U2, typed "a" one second ago. *)
Definition typedOneSecondAgo : State :=
  run (init (Some (js "U1")))
      [SelectUser (Some (js "U2")); InputChange (js "a"); Elapse 1000].

(** A message content as the send action produces it: not empty, no white
    space at either end. *)
Definition trimmed (m : jsstring) : Prop :=
  m <> []
  /\ (forall c r, m = c :: r -> is_white_space c = false)
  /\ (forall c r, m = r ++ [c] -> is_white_space c = false).

(** Every pending timer is due after now, at most 3 seconds from now. *)
Definition timers_bounded (s : State) : Prop :=
  Forall (fun t => now s < timer_due t /\ timer_due t <= now s + 3000)
         (timers s).

(** A pending idle timer that would send something was started for the
    current user and the selected peer. *)
Definition idle_timer_current (s : State) : Prop :=
  forall t u p,
    In t (timers s) -> timer_cb t = StopTyping (Some u) (Some p) -> p <> [] ->
    currentUser s = Some u /\ selectedUserId s = Some p.

(** A closure over [user] and [peer] that would send a typing event sends
    it for the current user and the selected peer of [s]. *)
Definition closure_current (s : State) (user peer : option jsstring) : Prop :=
  forall u p, user = Some u -> peer = Some p -> p <> [] ->
    currentUser s = Some u /\ selectedUserId s = Some p.

(** Broadcast [b] is from the current user of [s] on the topic of the
    conversation selected in [s]. *)
Definition to_current_conversation (s : State) (b : Broadcast) : Prop :=
  currentUser s = Some (payload_userId b)
  /\ exists p,
       selectedUserId s = Some p /\ p <> []
       /\ topic b = channelName (payload_userId b) p.

(* ================================================================== *)
(** ** Facts about strings *)

Module JsStringFacts.

Lemma eqb_spec (a b : jsstring) : reflect (a = b) (eqb a b).
Proof.
  revert b; induction a as [|x a IH]; intros [|y b]; simpl;
    try (constructor; congruence).
  destruct (N.eqb_spec x y) as [->|Hxy]; simpl.
  - destruct (IH b) as [->|Hab]; constructor; congruence.
  - constructor; congruence.
Qed.

Lemma eqb_refl (a : jsstring) : eqb a a = true.
Proof. destruct (eqb_spec a a); congruence. Qed.

Lemma eqb_eq (a b : jsstring) : eqb a b = true <-> a = b.
Proof. destruct (eqb_spec a b); split; congruence. Qed.

Lemma compare_antisym (a b : jsstring) : compare b a = CompOpp (compare a b).
Proof.
  revert b; induction a as [|x a IH]; intros [|y b]; simpl; trivial.
  rewrite (N.compare_antisym x y).
  destruct (N.compare x y); simpl; auto.
Qed.

Lemma compare_eq (a b : jsstring) : compare a b = Eq -> a = b.
Proof.
  revert b; induction a as [|x a IH]; intros [|y b]; simpl;
    try discriminate; trivial.
  destruct (N.compare x y) eqn:E; try discriminate.
  apply N.compare_eq in E. intros H. f_equal; auto.
Qed.

(** Sorting a pair does not depend on the order the pair is given in. *)
Lemma sort_pair_comm (a b : jsstring) : sort [a; b] = sort [b; a].
Proof.
  unfold sort; cbn [fold_right insert]; unfold ltb.
  rewrite (compare_antisym a b).
  destruct (compare a b) eqn:E; cbn [CompOpp]; trivial.
  apply compare_eq in E. now subst.
Qed.

End JsStringFacts.

Import JsStringFacts.

(* ================================================================== *)
(** ** Channel topic is symmetric *)

(** C8.  For every pair of participant identifiers [a] and [b], the topic
    derived from [(a, b)] is the same string as the topic derived from
    [(b, a)]: both participants compute the identical channel name. *)
Theorem C8_channelName_symmetric (a b : jsstring) :
  channelName a b = channelName b a.
Proof.
  unfold channelName. now rewrite (sort_pair_comm a b).
Qed.

Example channelName_U1_U2 :
  channelName (js "U2") (js "U1") = js "chat-U1-U2"
  /\ channelName (js "U1") (js "U2") = js "chat-U1-U2".
Proof. split; reflexivity. Qed.

(* ================================================================== *)
(** ** Relevance filter of the change-event handler *)

Lemma isRelevant_iff (ch : Channel) (sender_id receiver_id : jsstring) :
  isRelevant ch sender_id receiver_id = true <->
  (sender_id = chan_user ch /\ receiver_id = chan_peer ch)
  \/ (sender_id = chan_peer ch /\ receiver_id = chan_user ch).
Proof.
  unfold isRelevant.
  rewrite orb_true_iff, !andb_true_iff, !eqb_eq. tauto.
Qed.

Lemma app_neq_self {A} (l : list A) (x : A) (l' : list A) : l ++ x :: l' <> l.
Proof.
  intros H. apply (f_equal (@List.length A)) in H.
  rewrite length_app in H. simpl in H. lia.
Qed.

(** The handler on its own, for whatever user and peer its channel captured. *)
Lemma onInsert_spec (ch : Channel) (sender_id receiver_id : jsstring)
    (s : State) :
  let s' := onInsert ch sender_id receiver_id s in
  let relevant :=
    (sender_id = chan_user ch /\ receiver_id = chan_peer ch)
    \/ (sender_id = chan_peer ch /\ receiver_id = chan_user ch) in
  (invalidated s' <> invalidated s <-> relevant)
  /\ (relevant ->
        s' = set_invalidated
               (invalidated s
                  ++ [MessagesKey (Some (chan_peer ch)); ConversationsKey]) s)
  /\ (~ relevant -> s' = s).
Proof.
  cbv zeta. unfold onInsert.
  destruct (isRelevant ch sender_id receiver_id) eqn:R.
  - apply isRelevant_iff in R.
    refine (conj _ (conj _ _)).
    + split; [intros _; exact R|]. intros _. simpl.
      rewrite <- app_assoc. apply app_neq_self.
    + intros _. unfold invalidateQueries, set_invalidated; simpl.
      now rewrite <- app_assoc.
    + intros NR. now elim NR.
  - assert (R' : ~ ((sender_id = chan_user ch /\ receiver_id = chan_peer ch)
                    \/ (sender_id = chan_peer ch /\ receiver_id = chan_user ch))).
    { rewrite <- isRelevant_iff. congruence. }
    refine (conj _ (conj _ _)).
    + split; [congruence | tauto].
    + tauto.
    + reflexivity.
Qed.

(* ================================================================== *)
(** ** Sending a message *)

Lemma truthy_true (x : jsstring) : truthy x = true <-> x <> [].
Proof. destruct x; simpl; split; congruence. Qed.

(** C9.  A send with draft ["  hello  "] issues a create-message request for
    the selected peer with content ["hello"] (in general: with the trimmed
    draft); a send with an empty or whitespace-only draft, or with no peer
    selected, changes nothing: no request, same state. *)
Theorem C9_send_trims_or_noop (s : State) :
  (forall peer, selectedUserId s = Some peer -> peer <> [] ->
     trim (messageInput s) <> [] ->
     requests (handleSendMessage s)
     = requests s ++ [(peer, trim (messageInput s))])
  /\ (forall peer, selectedUserId s = Some peer -> peer <> [] ->
        messageInput s = js "  hello  " ->
        requests (handleSendMessage s) = requests s ++ [(peer, js "hello")])
  /\ (trim (messageInput s) = [] \/ opt_truthy (selectedUserId s) = false ->
        handleSendMessage s = s)
  /\ (messageInput s = [] \/ messageInput s = js "   "
      \/ selectedUserId s = None ->
        handleSendMessage s = s).
Proof.
  assert (G : forall peer, selectedUserId s = Some peer -> peer <> [] ->
     trim (messageInput s) <> [] ->
     requests (handleSendMessage s)
     = requests s ++ [(peer, trim (messageInput s))]).
  { intros peer Hp Hne Ht. unfold handleSendMessage. rewrite Hp.
    apply truthy_true in Hne, Ht. rewrite Hne, Ht. simpl.
    unfold sendTypingEvent. rewrite Hne.
    destruct (currentUser s); reflexivity. }
  assert (Z : trim (messageInput s) = [] \/ opt_truthy (selectedUserId s) = false ->
              handleSendMessage s = s).
  { intros H. unfold handleSendMessage.
    destruct (selectedUserId s) as [peer|]; trivial.
    destruct H as [H|H].
    - rewrite H. reflexivity.
    - simpl in H. rewrite H, andb_false_r. reflexivity. }
  repeat split.
  - exact G.
  - intros peer Hp Hne Hm.
    rewrite (G peer Hp Hne); rewrite Hm; [reflexivity | discriminate].
  - exact Z.
  - intros [H|[H|H]]; apply Z; rewrite H; auto.
Qed.

(** U1 selects U2, types ["  hello  "] and sends. *)
Lemma C9_witness :
  requests (handleSendMessage
              (run (init (Some (js "U1")))
                 [SelectUser (Some (js "U2")); InputChange (js "  hello  ")]))
  = [(js "U2", js "hello")].
Proof.
  apply (proj1 (proj2 (C9_send_trims_or_noop
           (run (init (Some (js "U1")))
              [SelectUser (Some (js "U2")); InputChange (js "  hello  ")])))
           (js "U2")).
  - reflexivity.
  - discriminate.
  - reflexivity.
Defined.

(* ================================================================== *)
(** ** Invariants of reachable states *)

Lemma clearTypingTimeout_all (s : State) :
  timers_in_ref s -> clearTypingTimeout s = set_timers [] s.
Proof.
  unfold timers_in_ref, clearTypingTimeout, clearTimeout.
  destruct s as [cu sel mi it ref sub nw tms nt chs nc lg snt inv rq]; simpl.
  destruct tms as [|t [|t' tms]]; simpl; intros H.
  - destruct ref; reflexivity.
  - subst ref. now rewrite Nat.eqb_refl.
  - contradiction.
Qed.

Lemma replay_snoc (log : list ChannelOp) (op : ChannelOp) :
  replay (log ++ [op]) = applyOp (replay log) op.
Proof. unfold replay. now rewrite fold_left_app. Qed.

Lemma Inv_init (u : option jsstring) : Inv (init u).
Proof. repeat split. Qed.

Lemma single_handle_cleanupEffect (s : State) :
  single_handle s ->
  channels (cleanupEffect s) = []
  /\ subscription (cleanupEffect s) = None
  /\ replay (channelLog (cleanupEffect s)) = Some None.
Proof.
  unfold single_handle, cleanupEffect, clearTypingTimeout, clearTimeout.
  destruct s as [cu sel mi it ref sub nw tms nt chs nc lg snt inv rq]; simpl.
  intros [Hc Hl].
  destruct sub as [ch|]; simpl in *; [|auto].
  subst chs.
  destruct ref; simpl; rewrite Nat.eqb_refl, replay_snoc, Hl; simpl;
    rewrite Nat.eqb_refl; auto.
Qed.

Lemma single_handle_subscribeEffect (s : State) :
  channels s = [] -> replay (channelLog s) = Some None ->
  single_handle (subscribeEffect s).
Proof.
  unfold single_handle, subscribeEffect.
  destruct s as [cu sel mi it ref sub nw tms nt chs nc lg snt inv rq]; simpl.
  intros -> Hl.
  destruct cu as [u|], sel as [p|]; simpl; auto.
  destruct (truthy p); simpl; auto.
  split; [reflexivity|]. rewrite replay_snoc, Hl. reflexivity.
Qed.

Lemma single_handle_rerunEffect (s : State) :
  single_handle s -> single_handle (rerunEffect s).
Proof.
  intros H. destruct (single_handle_cleanupEffect s H) as (Hc & _ & Hl).
  now apply single_handle_subscribeEffect.
Qed.

Lemma timers_in_ref_rerunEffect (s : State) :
  timers_in_ref s -> timers_in_ref (rerunEffect s).
Proof.
  intros H. unfold rerunEffect, cleanupEffect.
  destruct (subscription s) as [ch|] eqn:Hs.
  - rewrite (clearTypingTimeout_all s H).
    unfold subscribeEffect, timers_in_ref; simpl.
    destruct (currentUser s), (selectedUserId s) as [p|]; simpl; trivial.
    destruct (truthy p); simpl; trivial.
  - revert H. unfold subscribeEffect, timers_in_ref; simpl.
    destruct (currentUser s), (selectedUserId s) as [p|]; simpl; trivial.
    destruct (truthy p); simpl; trivial.
Qed.

Lemma Inv_rerunEffect (s : State) : Inv s -> Inv (rerunEffect s).
Proof.
  intros [H1 H2]. split.
  - now apply timers_in_ref_rerunEffect.
  - now apply single_handle_rerunEffect.
Qed.

(** What [sendTypingEvent] touches: the outbox only. *)
Lemma sendTypingEvent_sent (user peer : option jsstring) (typing : bool)
    (s : State) :
  exists out, sendTypingEvent user peer typing s = set_sent (sent s ++ out) s
              /\ Forall (fun b => payload_isTyping b = typing) out.
Proof.
  unfold sendTypingEvent.
  destruct user as [u|], peer as [p|];
    try (exists []; rewrite app_nil_r; destruct s; split; [reflexivity | constructor]).
  destruct (truthy p).
  - eexists; split; [reflexivity|]. repeat constructor.
  - exists []; rewrite app_nil_r; destruct s; split; [reflexivity | constructor].
Qed.

Lemma Inv_sendTypingEvent (user peer : option jsstring) (typing : bool)
    (s : State) :
  Inv s -> Inv (sendTypingEvent user peer typing s).
Proof.
  destruct (sendTypingEvent_sent user peer typing s) as (out & -> & _).
  trivial.
Qed.

Lemma Inv_handleInputChange (value : jsstring) (s : State) :
  Inv s -> Inv (handleInputChange value s).
Proof.
  intros HI. unfold handleInputChange.
  assert (HI' : Inv (set_messageInput value s)) by exact HI.
  destruct (Nat.ltb 0 (List.length value)).
  - pose proof (Inv_sendTypingEvent (currentUser s) (selectedUserId s) true _ HI')
      as [H1 H2].
    rewrite (clearTypingTimeout_all _ H1).
    split; [reflexivity | exact H2].
  - now apply Inv_sendTypingEvent.
Qed.

Lemma Inv_handleSendMessage (s : State) : Inv s -> Inv (handleSendMessage s).
Proof.
  intros HI. unfold handleSendMessage.
  destruct (selectedUserId s) as [peer|]; trivial.
  destruct (truthy (trim (messageInput s)) && truthy peer); trivial.
  exact (Inv_sendTypingEvent (currentUser s) (Some peer) false s HI).
Qed.

Lemma Inv_onInsert (ch : Channel) (a b : jsstring) (s : State) :
  Inv s -> Inv (onInsert ch a b s).
Proof.
  intros HI. unfold onInsert. destruct (isRelevant ch a b); trivial.
Qed.

Lemma Inv_onTyping (ch : Channel) (userId : jsstring) (typing : bool)
    (s : State) :
  Inv s -> Inv (onTyping ch userId typing s).
Proof.
  intros HI. unfold onTyping.
  destruct (eqb userId (chan_peer ch)); trivial.
  destruct typing; [|exact HI].
  assert (HI' : Inv (set_isTyping true s)) by exact HI.
  destruct HI' as [H1 H2].
  rewrite (clearTypingTimeout_all _ H1).
  split; [reflexivity | exact H2].
Qed.

Lemma Inv_fold {A} (f : State -> A -> State) (l : list A) :
  (forall s a, Inv s -> Inv (f s a)) ->
  forall s, Inv s -> Inv (fold_left f l s).
Proof.
  intros Hf. induction l as [|a l IH]; simpl; auto.
Qed.

Lemma Inv_fire (s : State) (t : Timer) : Inv s -> Inv (fire s t).
Proof.
  intros HI. unfold fire, runCallback.
  destruct (timer_cb t) as [|user peer].
  - exact HI.
  - now apply Inv_sendTypingEvent.
Qed.

Lemma timers_in_ref_filter (f : Timer -> bool) (s : State) :
  timers_in_ref s -> timers_in_ref (set_timers (filter f (timers s)) s).
Proof.
  unfold timers_in_ref; simpl.
  destruct (timers s) as [|t [|t' l]]; simpl; trivial; [|contradiction].
  destruct (f t); trivial.
Qed.

Lemma Inv_elapse (dt : N) (s : State) : Inv s -> Inv (elapse dt s).
Proof.
  intros [H1 H2]. unfold elapse.
  set (s0 := set_timers _ s).
  assert (H0 : Inv s0) by (split; [now apply timers_in_ref_filter | exact H2]).
  exact (Inv_fold fire _ Inv_fire s0 H0).
Qed.

Lemma Inv_step (s : State) (e : Event) : Inv s -> Inv (step s e).
Proof.
  intros HI. destruct e; simpl.
  - now apply Inv_rerunEffect.
  - unfold setSelectedUserId. destruct (opt_eqb v (selectedUserId s)); trivial.
    now apply Inv_rerunEffect.
  - now apply Inv_handleInputChange.
  - now apply Inv_handleSendMessage.
  - exact HI.
  - apply Inv_fold; trivial. intros; now apply Inv_onInsert.
  - apply Inv_fold; trivial. intros; now apply Inv_onTyping.
  - now apply Inv_elapse.
Qed.

Lemma Inv_run (es : list Event) (s : State) : Inv s -> Inv (run s es).
Proof. apply Inv_fold. exact Inv_step. Qed.

Lemma Inv_reachable (u : option jsstring) (es : list Event) :
  Inv (run (init u) es).
Proof. apply Inv_run, Inv_init. Qed.

(* ------------------------------------------------------------------ *)
(** *** The channel of the current conversation *)

Lemma same_session_refl (s : State) : same_session s s.
Proof. repeat split. Qed.

Lemma same_session_trans (s1 s2 s3 : State) :
  same_session s1 s2 -> same_session s2 s3 -> same_session s1 s3.
Proof.
  unfold same_session. intros (A1 & A2 & A3) (B1 & B2 & B3).
  repeat split; congruence.
Qed.

Lemma same_session_fold {A} (f : State -> A -> State) (l : list A) :
  (forall s a, same_session s (f s a)) ->
  forall s, same_session s (fold_left f l s).
Proof.
  intros Hf. induction l as [|a l IH]; simpl; intros s.
  - apply same_session_refl.
  - eapply same_session_trans; [apply Hf | apply IH].
Qed.

Lemma sendTypingEvent_session user peer typing (s : State) :
  same_session s (sendTypingEvent user peer typing s).
Proof.
  destruct (sendTypingEvent_sent user peer typing s) as (out & -> & _).
  repeat split.
Qed.

Lemma clearTypingTimeout_session (s : State) :
  same_session s (clearTypingTimeout s).
Proof.
  unfold clearTypingTimeout. destruct (typingTimeoutRef s); repeat split.
Qed.

Lemma handleInputChange_session (value : jsstring) (s : State) :
  same_session s (handleInputChange value s).
Proof.
  unfold handleInputChange.
  destruct (Nat.ltb 0 (List.length value)).
  - eapply same_session_trans;
      [apply (sendTypingEvent_session (currentUser s) (selectedUserId s) true
                (set_messageInput value s))|].
    eapply same_session_trans; [apply clearTypingTimeout_session|].
    repeat split.
  - apply (sendTypingEvent_session (currentUser s) (selectedUserId s) false
             (set_messageInput value s)).
Qed.

Lemma handleSendMessage_session (s : State) :
  same_session s (handleSendMessage s).
Proof.
  unfold handleSendMessage.
  destruct (selectedUserId s) as [peer|] eqn:Hp; [|apply same_session_refl].
  destruct (truthy (trim (messageInput s)) && truthy peer);
    [|apply same_session_refl].
  destruct (sendTypingEvent_sent (currentUser s) (Some peer) false s)
    as (out & -> & _).
  repeat split.
Qed.

Lemma onInsert_session (ch : Channel) (a b : jsstring) (s : State) :
  same_session s (onInsert ch a b s).
Proof.
  unfold onInsert. destruct (isRelevant ch a b); repeat split.
Qed.

Lemma onTyping_session (ch : Channel) (userId : jsstring) (typing : bool)
    (s : State) :
  same_session s (onTyping ch userId typing s).
Proof.
  unfold onTyping.
  destruct (eqb userId (chan_peer ch)); [|apply same_session_refl].
  destruct typing; [|repeat split].
  eapply same_session_trans;
    [apply (clearTypingTimeout_session (set_isTyping true s))|].
  repeat split.
Qed.

Lemma fire_session (s : State) (t : Timer) : same_session s (fire s t).
Proof.
  unfold fire, runCallback. destruct (timer_cb t) as [|user peer].
  - repeat split.
  - apply (sendTypingEvent_session user peer false
             (set_now (N.max (now s) (timer_due t)) s)).
Qed.

Lemma elapse_session (d : N) (s : State) : same_session s (elapse d s).
Proof.
  unfold elapse.
  set (l := sortTimers _). set (s0 := set_timers _ s).
  apply (same_session_trans s s0); [repeat split|].
  apply (same_session_trans s0 (fold_left fire l s0)); [|repeat split].
  apply same_session_fold, fire_session.
Qed.

Lemma subscription_current_same (s s' : State) :
  same_session s s' -> subscription_current s -> subscription_current s'.
Proof.
  unfold same_session, subscription_current.
  intros (-> & -> & ->). trivial.
Qed.

Lemma subscription_current_rerunEffect (s : State) :
  subscription_current (rerunEffect s).
Proof.
  unfold subscription_current, rerunEffect, cleanupEffect, subscribeEffect,
    clearTypingTimeout.
  destruct s as [cu sel mi it ref sub nw tms nt chs nc lg snt inv rq]; simpl.
  destruct sub, ref, cu as [u|], sel as [p|]; simpl; trivial;
    destruct (truthy p) eqn:Hp; simpl; rewrite ?Hp; trivial;
    eexists; reflexivity.
Qed.

Lemma subscription_current_step (s : State) (e : Event) :
  subscription_current s -> subscription_current (step s e).
Proof.
  intros H. destruct e; simpl.
  - apply subscription_current_rerunEffect.
  - unfold setSelectedUserId. destruct (opt_eqb v (selectedUserId s)); trivial.
    apply subscription_current_rerunEffect.
  - exact (subscription_current_same _ _ (handleInputChange_session value s) H).
  - exact (subscription_current_same _ _ (handleSendMessage_session s) H).
  - exact H.
  - refine (subscription_current_same _ _ _ H).
    apply same_session_fold. intros; apply onInsert_session.
  - refine (subscription_current_same _ _ _ H).
    apply same_session_fold. intros; apply onTyping_session.
  - exact (subscription_current_same _ _ (elapse_session dt s) H).
Qed.

Lemma subscription_current_reachable (u : option jsstring) (es : list Event) :
  subscription_current (run (init u) es).
Proof.
  unfold run.
  assert (H : subscription_current (init u)) by (destruct u; reflexivity).
  revert H. generalize (init u). induction es as [|e es IH]; simpl; intros s H.
  - exact H.
  - apply IH, subscription_current_step, H.
Qed.

(** In a reachable state with a user and a selected peer, the one live
    channel is the one of their conversation. *)
Lemma reachable_channel (u0 : option jsstring) (es : list Event)
    (u p : jsstring) :
  currentUser (run (init u0) es) = Some u ->
  selectedUserId (run (init u0) es) = Some p -> p <> [] ->
  exists id,
    channels (run (init u0) es) = [mkChannel id (channelName u p) u p].
Proof.
  intros Hu Hp Hpne.
  destruct (Inv_reachable u0 es) as [_ [Hc _]].
  pose proof (subscription_current_reachable u0 es) as Hs.
  unfold subscription_current in Hs. rewrite Hu, Hp in Hs.
  apply truthy_true in Hpne. rewrite Hpne in Hs.
  destruct Hs as [id Hs]. exists id. now rewrite Hc, Hs.
Qed.

(* ================================================================== *)
(** ** The change-event handler in a session *)

(** C1.  In every reachable state with a logged-in user [u] and a selected
    peer [p], an inserted-message event triggers the two invalidations (the
    thread of [p], then the conversation list) if and only if its
    sender/receiver pair is [(u, p)] or [(p, u)]; when it does not, nothing
    changes.  In particular an event about a message between [u] and a user
    [y] other than [p] leaves the state as it is. *)
Theorem C1_invalidation_iff_relevant
    (u0 : option jsstring) (pre : list Event)
    (u p sender_id receiver_id : jsstring) :
  let s := run (init u0) pre in
  currentUser s = Some u -> selectedUserId s = Some p -> p <> [] ->
  let s' := step s (Inserted sender_id receiver_id) in
  let relevant :=
    (sender_id = u /\ receiver_id = p) \/ (sender_id = p /\ receiver_id = u) in
  (invalidated s' <> invalidated s <-> relevant)
  /\ (relevant ->
        s' = set_invalidated
               (invalidated s ++ [MessagesKey (Some p); ConversationsKey]) s)
  /\ (~ relevant -> s' = s)
  /\ (forall y : jsstring,
        y <> p ->
        (sender_id = u /\ receiver_id = y) \/ (sender_id = y /\ receiver_id = u) ->
        s' = s).
Proof.
  intros s Hu Hp Hpne. cbv zeta.
  destruct (reachable_channel u0 pre u p Hu Hp Hpne) as [id Hc]. fold s in Hc.
  assert (E : step s (Inserted sender_id receiver_id)
              = onInsert (mkChannel id (channelName u p) u p)
                  sender_id receiver_id s).
  { simpl. now rewrite Hc. }
  rewrite E.
  destruct (onInsert_spec (mkChannel id (channelName u p) u p)
              sender_id receiver_id s) as (H1 & H2 & H3).
  simpl in H1, H2, H3.
  refine (conj H1 (conj H2 (conj H3 _))).
  intros y Hy Hxy. apply H3. intros [[? ?]|[? ?]];
    destruct Hxy as [[? ?]|[? ?]]; congruence.
Qed.

(** An event between U1 and U2 while U1 talks to U3. *)
Lemma C1_witness :
  step (run (init (Some (js "U1"))) [SelectUser (Some (js "U3"))])
       (Inserted (js "U2") (js "U1"))
  = run (init (Some (js "U1"))) [SelectUser (Some (js "U3"))].
Proof.
  apply (proj2 (proj2 (proj2
           (C1_invalidation_iff_relevant (Some (js "U1"))
              [SelectUser (Some (js "U3"))]
              (js "U1") (js "U3") (js "U2") (js "U1")
              eq_refl eq_refl ltac:(discriminate))))
           (js "U2")).
  - discriminate.
  - right. split; reflexivity.
Defined.

(* ================================================================== *)
(** ** One subscription handle at a time *)

Lemma opt_eqb_false (a b : option jsstring) : a <> b -> opt_eqb a b = false.
Proof.
  destruct a as [x|], b as [y|]; simpl; trivial; intros H.
  - destruct (eqb_spec x y); congruence.
  - congruence.
Qed.

(** Selecting another peer while a channel is live: the live channel is
    removed, then the new channel is subscribed. *)
Lemma select_other_peer (s : State) (ch : Channel) (u c : jsstring) :
  single_handle s -> subscription s = Some ch -> currentUser s = Some u ->
  selectedUserId s <> Some c -> c <> [] ->
  let s' := step s (SelectUser (Some c)) in
  channelLog s'
  = channelLog s ++ [Removed (chan_id ch); Subscribed (nextChannelId s)]
  /\ channels s' = [mkChannel (nextChannelId s) (channelName u c) u c].
Proof.
  intros [Hc _] Hs Hu Hsel Hne. cbv zeta. simpl. unfold setSelectedUserId.
  rewrite (opt_eqb_false (Some c) (selectedUserId s)) by congruence.
  rewrite Hs in Hc. apply truthy_true in Hne.
  unfold rerunEffect, cleanupEffect, subscribeEffect, clearTypingTimeout.
  destruct s as [cu sel mi it ref sub nw tms nt chs nc lg snt inv rq];
    simpl in *; subst.
  destruct ref; simpl; rewrite Hne; simpl; rewrite Nat.eqb_refl; simpl;
    rewrite <- app_assoc; auto.
Qed.

(** C2.  After every sequence of events of a session (peer selections in
    particular), at most one channel is live, it is the one the mounted
    effect holds, and the log of channel operations replays without ever
    subscribing a channel while another is live; selecting another peer [c]
    while the channel of the previous peer is live first removes that channel
    and then subscribes the one for [c], which is the only live channel
    afterwards. *)
Theorem C2_single_subscription_handle (u : option jsstring) (es : list Event) :
  let s := run (init u) es in
  (List.length (channels s) <= 1)%nat
  /\ channels s = match subscription s with Some ch => [ch] | None => [] end
  /\ replay (channelLog s) = Some (option_map chan_id (subscription s))
  /\ (forall ch me c,
        subscription s = Some ch -> currentUser s = Some me ->
        selectedUserId s <> Some c -> c <> [] ->
        let s' := step s (SelectUser (Some c)) in
        channelLog s'
        = channelLog s ++ [Removed (chan_id ch); Subscribed (nextChannelId s)]
        /\ channels s' = [mkChannel (nextChannelId s) (channelName me c) me c]).
Proof.
  cbv zeta. destruct (Inv_reachable u es) as [_ [Hc Hl]].
  refine (conj _ (conj Hc (conj Hl _))).
  - rewrite Hc. destruct (subscription (run (init u) es)); simpl; lia.
  - intros ch me c Hs Hu Hsel Hne.
    exact (select_other_peer _ ch me c (conj Hc Hl) Hs Hu Hsel Hne).
Qed.

(** User a has selected b and selects c. *)
Lemma C2_witness :
  channelLog (step (run (init (Some (js "a"))) [SelectUser (Some (js "b"))])
                (SelectUser (Some (js "c"))))
  = [Subscribed 1] ++ [Removed 1; Subscribed 2]
  /\ channels (step (run (init (Some (js "a"))) [SelectUser (Some (js "b"))])
                 (SelectUser (Some (js "c"))))
     = [mkChannel 2 (channelName (js "a") (js "c")) (js "a") (js "c")].
Proof.
  apply (proj2 (proj2 (proj2
           (C2_single_subscription_handle (Some (js "a"))
              [SelectUser (Some (js "b"))])))
           (mkChannel 1 (channelName (js "a") (js "b")) (js "a") (js "b"))
           (js "a") (js "c")).
  - reflexivity.
  - reflexivity.
  - discriminate.
  - discriminate.
Defined.

(** Selecting peer b and then peer c. *)
Example select_b_then_c :
  let s := run (init (Some (js "a")))
               [SelectUser (Some (js "b")); SelectUser (Some (js "c"))] in
  channelLog s = [Subscribed 1; Removed 1; Subscribed 2]
  /\ map chan_topic (channels s) = [js "chat-a-c"].
Proof. split; reflexivity. Qed.

(* ================================================================== *)
(** ** Realtime events leave the draft alone *)

Lemma same_but_presence_refl (s : State) : same_but_presence s s.
Proof. repeat split. Qed.

Lemma same_but_presence_trans (s1 s2 s3 : State) :
  same_but_presence s1 s2 -> same_but_presence s2 s3 ->
  same_but_presence s1 s3.
Proof.
  unfold same_but_presence. intros H12 H23.
  decompose [and] H12; decompose [and] H23; repeat split; congruence.
Qed.

Lemma onInsert_frame (ch : Channel) (a b : jsstring) (s : State) :
  same_but_presence s (onInsert ch a b s).
Proof.
  unfold onInsert. destruct (isRelevant ch a b); repeat split.
Qed.

Lemma onTyping_frame (ch : Channel) (userId : jsstring) (typing : bool)
    (s : State) :
  same_but_presence s (onTyping ch userId typing s).
Proof.
  unfold onTyping, clearTypingTimeout.
  destruct (eqb userId (chan_peer ch)); [|apply same_but_presence_refl].
  destruct typing; [|repeat split].
  destruct s as [cu sel mi it ref sub nw tms nt chs nc lg snt inv rq]; simpl.
  destruct ref; repeat split.
Qed.

Lemma frame_fold {A} (f : State -> A -> State) (l : list A) :
  (forall s a, same_but_presence s (f s a)) ->
  forall s, same_but_presence s (fold_left f l s).
Proof.
  intros Hf. induction l as [|a l IH]; simpl; intros s.
  - apply same_but_presence_refl.
  - eapply same_but_presence_trans; [apply Hf | apply IH].
Qed.

Lemma sendTypingEvent_messageInput user peer typing (s : State) :
  messageInput (sendTypingEvent user peer typing s) = messageInput s.
Proof.
  destruct (sendTypingEvent_sent user peer typing s) as (out & -> & _).
  reflexivity.
Qed.

Lemma fire_messageInput (s : State) (t : Timer) :
  messageInput (fire s t) = messageInput s.
Proof.
  unfold fire, runCallback. destruct (timer_cb t); trivial.
  now rewrite sendTypingEvent_messageInput.
Qed.

Lemma fold_fire_messageInput (l : list Timer) (s : State) :
  messageInput (fold_left fire l s) = messageInput s.
Proof.
  revert s. induction l as [|t l IH]; simpl; intros s; trivial.
  now rewrite IH, fire_messageInput.
Qed.

Lemma elapse_messageInput (dt : N) (s : State) :
  messageInput (elapse dt s) = messageInput s.
Proof.
  unfold elapse. simpl. now rewrite fold_fire_messageInput.
Qed.

Lemma rerunEffect_messageInput (s : State) :
  messageInput (rerunEffect s) = messageInput s.
Proof.
  unfold rerunEffect, cleanupEffect, subscribeEffect, clearTypingTimeout.
  destruct s as [cu sel mi it ref sub nw tms nt chs nc lg snt inv rq]; simpl.
  destruct sub, ref, cu, sel as [p|]; simpl; trivial;
    destruct (truthy p); trivial.
Qed.

(** X19.  The handlers of incoming realtime events (inserted-message change
    events and typing broadcasts) never modify the draft [messageInput]: they
    leave the user, the selection, the draft, the subscription, the clock,
    the channels, the outgoing broadcasts and the requests as they are (they
    may change the remote-typing flag, the timer handle and the pending
    timers, and the invalidations).  The success callback of a send clears
    the draft, and apart from the user's own input change it is the only
    event that changes the draft. *)
Theorem realtime_events_keep_draft (s : State) :
  (forall sender_id receiver_id,
     same_but_presence s (step s (Inserted sender_id receiver_id)))
  /\ (forall on_topic userId typing,
        same_but_presence s (step s (TypingEvent on_topic userId typing)))
  /\ (forall ch sender_id receiver_id,
        messageInput (onInsert ch sender_id receiver_id s) = messageInput s)
  /\ (forall ch userId typing,
        messageInput (onTyping ch userId typing s) = messageInput s)
  /\ messageInput (step s SendSucceeded) = []
  /\ (forall e, messageInput (step s e) <> messageInput s ->
        (exists value, e = InputChange value) \/ e = SendSucceeded).
Proof.
  refine (conj _ (conj _ (conj _ (conj _ (conj _ _))))).
  - intros a b. simpl. apply frame_fold. intros; apply onInsert_frame.
  - intros tp uid ty. simpl. apply frame_fold. intros; apply onTyping_frame.
  - intros ch a b. apply (onInsert_frame ch a b s).
  - intros ch uid ty. apply (onTyping_frame ch uid ty s).
  - reflexivity.
  - intros e He. destruct e; simpl in He.
    + elim He. now rewrite rerunEffect_messageInput.
    + elim He. unfold setSelectedUserId.
      destruct (opt_eqb v (selectedUserId s)); trivial.
      now rewrite rerunEffect_messageInput.
    + left. now exists value.
    + elim He. unfold handleSendMessage.
      destruct (selectedUserId s) as [peer|]; trivial.
      destruct (truthy (trim (messageInput s)) && truthy peer); trivial.
      simpl. apply sendTypingEvent_messageInput.
    + now right.
    + elim He. apply (frame_fold _ _ (fun s ch => onInsert_frame ch _ _ s)).
    + elim He. apply (frame_fold _ _ (fun s ch => onTyping_frame ch _ _ s)).
    + elim He. apply elapse_messageInput.
Qed.

(** A successful send is an event that changes a non-empty draft. *)
Lemma realtime_events_keep_draft_witness :
  (exists value,
      SendSucceeded = InputChange value) \/ SendSucceeded = SendSucceeded.
Proof.
  apply (proj2 (proj2 (proj2 (proj2 (proj2
           (realtime_events_keep_draft
              (run (init (Some (js "U1")))
                 [SelectUser (Some (js "U2")); InputChange (js "hi")])))))) SendSucceeded).
  discriminate.
Defined.

(* ================================================================== *)
(** ** Time passing with at most one pending timer *)

Lemma elapse_pending (d : N) (s : State) (tm : Timer) :
  timers s = [tm] -> now s + d < timer_due tm ->
  elapse d s = set_now (now s + d) s.
Proof.
  intros Ht Hd. unfold elapse. rewrite Ht. simpl.
  apply N.leb_gt in Hd. rewrite Hd. simpl.
  destruct s; simpl in *; now subst.
Qed.

Lemma elapse_due (d : N) (s : State) (tm : Timer) :
  timers s = [tm] -> timer_due tm <= now s + d ->
  elapse d s = set_now (now s + d) (fire (set_timers [] s) tm).
Proof.
  intros Ht Hd. unfold elapse. rewrite Ht. simpl.
  apply N.leb_le in Hd. rewrite Hd. reflexivity.
Qed.

Lemma fire_channels (s : State) (t : Timer) : channels (fire s t) = channels s.
Proof.
  unfold fire, runCallback.
  destruct (timer_cb t) as [|user peer]; trivial.
  destruct (sendTypingEvent_sent user peer false
              (set_now (N.max (now s) (timer_due t)) s)) as (out & -> & _).
  reflexivity.
Qed.

Lemma fold_fire_channels (l : list Timer) (s : State) :
  channels (fold_left fire l s) = channels s.
Proof.
  revert s. induction l as [|t l IH]; simpl; intros s; trivial.
  now rewrite IH, fire_channels.
Qed.

Lemma elapse_channels (d : N) (s : State) : channels (elapse d s) = channels s.
Proof.
  unfold elapse. simpl. now rewrite fold_fire_channels.
Qed.

(* ================================================================== *)
(** ** Local typing emission: the idle timer *)

Lemma idle_armed_timers_in_ref u p t s : idle_armed u p t s -> timers_in_ref s.
Proof.
  intros (_ & _ & _ & _ & id & Ht & Hr). unfold timers_in_ref. now rewrite Ht.
Qed.

Lemma handleInputChange_arms (u p value : jsstring) (s : State) :
  timers_in_ref s -> currentUser s = Some u -> selectedUserId s = Some p ->
  p <> [] -> value <> [] ->
  let s' := handleInputChange value s in
  idle_armed u p (now s) s'
  /\ now s' = now s
  /\ sent s' = sent s ++ [mkBroadcast (now s) (channelName u p) u true].
Proof.
  intros Hin Hu Hp Hpne Hv. cbv zeta. unfold handleInputChange.
  rewrite Hu, Hp.
  assert (Hlen : Nat.ltb 0 (List.length value) = true)
    by (destruct value; [congruence | reflexivity]).
  rewrite Hlen. unfold sendTypingEvent.
  apply truthy_true in Hpne as Hpt. rewrite Hpt.
  set (s1 := set_sent _ _).
  assert (H1 : timers_in_ref s1) by exact Hin.
  rewrite (clearTypingTimeout_all s1 H1). subst s1. simpl.
  unfold idle_armed. simpl. repeat split; trivial.
  - lia.
  - eexists; split; reflexivity.
Qed.

Lemma idle_armed_elapse_before (u p : jsstring) (t d : N) (s : State) :
  idle_armed u p t s -> now s + d < t + 2000 ->
  idle_armed u p t (elapse d s)
  /\ now (elapse d s) = now s + d
  /\ sent (elapse d s) = sent s.
Proof.
  intros (Hu & Hp & Hpne & Hnow & id & Ht & Hr) Hd.
  rewrite (elapse_pending d s _ Ht) by exact Hd. simpl.
  repeat split; trivial. now exists id.
Qed.

Lemma idle_armed_elapse_fires (u p : jsstring) (t d : N) (s : State) :
  idle_armed u p t s -> t + 2000 <= now s + d ->
  let s' := elapse d s in
  sent s' = sent s ++ [mkBroadcast (t + 2000) (channelName u p) u false]
  /\ timers s' = []
  /\ now s' = now s + d
  /\ currentUser s' = Some u
  /\ selectedUserId s' = Some p.
Proof.
  intros (Hu & Hp & Hpne & Hnow & id & Ht & Hr) Hd. cbv zeta.
  rewrite (elapse_due d s _ Ht) by exact Hd.
  unfold fire, runCallback, sendTypingEvent. simpl.
  apply truthy_true in Hpne. rewrite Hpne. simpl.
  rewrite N.max_r by lia. auto.
Qed.

Lemma typingLog_true (u p : jsstring) (ks : list (N * jsstring)) :
  forall t, filter payload_isTyping (typingLog u p t ks) = typingTrueAt u p t ks.
Proof.
  induction ks as [|k ks IH]; intros t; simpl; trivial.
  rewrite filter_app. simpl. rewrite IH.
  destruct (2000 <=? fst k); reflexivity.
Qed.

Lemma typingLog_quick (u p : jsstring) (ks : list (N * jsstring)) :
  Forall (fun k => fst k < 2000) ks ->
  forall t, typingLog u p t ks = typingTrueAt u p t ks.
Proof.
  induction 1 as [|k ks Hk _ IH]; intros t; simpl; trivial.
  apply N.leb_gt in Hk. rewrite Hk, IH. reflexivity.
Qed.

Lemma keystrokes_keep_armed (u p : jsstring) (ks : list (N * jsstring)) :
  Forall (fun k => snd k <> []) ks ->
  forall s, idle_armed u p (now s) s ->
  let s' := run s (keystrokes ks) in
  idle_armed u p (now s') s'
  /\ now s' = lastKeystroke (now s) ks
  /\ sent s' = sent s ++ typingLog u p (now s) ks.
Proof.
  induction 1 as [|[gap v] ks Hv _ IH]; intros s Ha; cbv zeta.
  - simpl. rewrite app_nil_r. auto.
  - simpl in Hv.
    assert (S1 : exists s1,
               s1 = elapse gap s
               /\ timers_in_ref s1 /\ currentUser s1 = Some u
               /\ selectedUserId s1 = Some p /\ now s1 = now s + gap
               /\ sent s1
                  = sent s ++ (if 2000 <=? gap
                               then [mkBroadcast (now s + 2000)
                                       (channelName u p) u false]
                               else [])).
    { exists (elapse gap s). split; [reflexivity|].
      destruct (N.leb_spec 2000 gap) as [Hge|Hlt].
      - destruct (idle_armed_elapse_fires u p (now s) gap s Ha)
          as (Hs1 & Ht1 & Hn1 & Hu1 & Hp1); [lia|].
        unfold timers_in_ref. rewrite Ht1. auto.
      - destruct (idle_armed_elapse_before u p (now s) gap s Ha)
          as (Ha1 & Hn1 & Hs1); [lia|].
        pose proof Ha1 as (Hu1 & Hp1 & _).
        rewrite app_nil_r.
        split; [exact (idle_armed_timers_in_ref _ _ _ _ Ha1) | auto]. }
    destruct S1 as (s1 & E1 & Hin1 & Hu1 & Hp1 & Hn1 & Hs1).
    pose proof Ha as (_ & _ & Hpne & _).
    destruct (handleInputChange_arms u p v s1 Hin1 Hu1 Hp1 Hpne Hv)
      as (Ha2 & Hn2 & Hs2).
    rewrite <- Hn2 in Ha2.
    destruct (IH _ Ha2) as (Ha3 & Hn3 & Hs3).
    change (run s (keystrokes ((gap, v) :: ks)))
      with (run (handleInputChange v (elapse gap s)) (keystrokes ks)).
    rewrite <- E1. split; [exact Ha3|]. split.
    + rewrite Hn3, Hn2, Hn1. reflexivity.
    + rewrite Hs3, Hs2, Hs1, Hn2, Hn1. simpl.
      rewrite <- !app_assoc. reflexivity.
Qed.

(** X17.  In a session where the user is logged in and a peer is selected,
    for every sequence of non-empty input changes with nothing but the
    passing of time in between and afterwards (no typing broadcast of the
    peer, no send, no change of selection): every input change sends a
    [typing: true] broadcast at its own time and restarts the idle timer, so
    that afterwards exactly one idle timer is pending, due 2 seconds after the
    last input change; as long as each input change comes less than 2 seconds
    after the previous one, nothing but those [typing: true] is sent (no
    [typing: false]); after the last input change nothing is sent while less
    than 2 seconds pass, and once 2 seconds have passed with no further input
    one [typing: false] has been sent, at 2 seconds after the last input
    change. *)
Theorem typing_idle_debounce
    (u0 : option jsstring) (pre : list Event)
    (u p value : jsstring) (ks : list (N * jsstring)) :
  let s := run (init u0) pre in
  currentUser s = Some u -> selectedUserId s = Some p -> p <> [] ->
  value <> [] -> Forall (fun k => snd k <> []) ks ->
  let s' := run s (InputChange value :: keystrokes ks) in
  let t := lastKeystroke (now s) ks in
  let out := mkBroadcast (now s) (channelName u p) u true
               :: typingLog u p (now s) ks in
  now s' = t
  /\ sent s' = sent s ++ out
  /\ filter payload_isTyping out
     = mkBroadcast (now s) (channelName u p) u true
         :: typingTrueAt u p (now s) ks
  /\ (Forall (fun k => fst k < 2000) ks ->
        Forall (fun b => payload_isTyping b = true) out)
  /\ (exists id,
        timers s' = [mkTimer id (t + 2000) (StopTyping (Some u) (Some p))]
        /\ typingTimeoutRef s' = Some id)
  /\ (forall d, d < 2000 -> sent (elapse d s') = sent s')
  /\ (forall d, 2000 <= d ->
        sent (elapse d s')
        = sent s' ++ [mkBroadcast (t + 2000) (channelName u p) u false]).
Proof.
  intros s Hu Hp Hpne Hv Hks. cbv zeta.
  destruct (Inv_reachable u0 pre) as [Hin _]. fold s in Hin.
  destruct (handleInputChange_arms u p value s Hin Hu Hp Hpne Hv)
    as (Ha1 & Hn1 & Hs1).
  rewrite <- Hn1 in Ha1.
  destruct (keystrokes_keep_armed u p ks Hks _ Ha1) as (Ha2 & Hn2 & Hs2).
  change (run s (InputChange value :: keystrokes ks))
    with (run (handleInputChange value s) (keystrokes ks)).
  set (s' := run (handleInputChange value s) (keystrokes ks)) in *.
  rewrite Hn1 in Hn2, Hs2.
  refine (conj Hn2 (conj _ (conj _ (conj _ (conj _ (conj _ _)))))).
  - rewrite Hs2, Hs1, <- app_assoc. reflexivity.
  - cbn [filter payload_isTyping]. now rewrite typingLog_true.
  - intros Hq. rewrite (typingLog_quick u p ks Hq).
    constructor; [reflexivity|].
    rewrite <- (typingLog_true u p ks (now s)).
    apply Forall_forall. intros b Hb. apply filter_In in Hb. apply Hb.
  - rewrite <- Hn2. destruct Ha2 as (_ & _ & _ & _ & id & Ht & Hr). now exists id.
  - intros d Hd.
    apply (idle_armed_elapse_before u p (now s') d s' Ha2). lia.
  - intros d Hd. rewrite <- Hn2.
    apply (idle_armed_elapse_fires u p (now s') d s' Ha2). lia.
Qed.

(** Keystrokes at t = 0 and t = 1000: [typing: false] goes out at t = 3000. *)
Lemma typing_idle_debounce_witness :
  let s := run (init (Some (js "U1"))) [SelectUser (Some (js "U2"))] in
  let s' := run s (InputChange (js "h") :: keystrokes [(1000, js "hi")]) in
  sent (elapse 1999 s') = sent s'
  /\ sent (elapse 2000 s')
     = [mkBroadcast 0 (js "chat-U1-U2") (js "U1") true;
        mkBroadcast 1000 (js "chat-U1-U2") (js "U1") true;
        mkBroadcast 3000 (js "chat-U1-U2") (js "U1") false].
Proof.
  cbv zeta.
  pose proof (typing_idle_debounce (Some (js "U1"))
                [SelectUser (Some (js "U2"))] (js "U1") (js "U2") (js "h")
                [(1000, js "hi")]) as H.
  cbv zeta in H.
  destruct H as (_ & Hs & _ & _ & _ & Hlt & Hge).
  - reflexivity.
  - reflexivity.
  - discriminate.
  - discriminate.
  - constructor; [discriminate | constructor].
  - split.
    + apply Hlt. lia.
    + rewrite (Hge 2000) by lia. rewrite Hs. reflexivity.
Defined.

(* ================================================================== *)
(** ** Remote typing consumption: the expiry timer *)

Lemma step_TypingEvent_single (ch : Channel) (typing : bool) (s : State) :
  channels s = [ch] ->
  step s (TypingEvent (chan_topic ch) (chan_peer ch) typing)
  = onTyping ch (chan_peer ch) typing s.
Proof.
  intros Hc. simpl. rewrite Hc. simpl. now rewrite eqb_refl.
Qed.

Lemma onTyping_true_arms (ch : Channel) (s : State) :
  timers_in_ref s ->
  let s' := onTyping ch (chan_peer ch) true s in
  expiry_armed (now s) s' /\ now s' = now s /\ channels s' = channels s.
Proof.
  intros Hin. cbv zeta. unfold onTyping. rewrite eqb_refl.
  assert (H1 : timers_in_ref (set_isTyping true s)) by exact Hin.
  rewrite (clearTypingTimeout_all _ H1).
  unfold expiry_armed. simpl. repeat split; trivial.
  - lia.
  - eexists; split; reflexivity.
Qed.

Lemma expiry_armed_elapse_before (t d : N) (s : State) :
  expiry_armed t s -> now s + d < t + 3000 -> isTyping (elapse d s) = true.
Proof.
  intros (Hi & Hnow & id & Ht & Hr) Hd.
  now rewrite (elapse_pending d s _ Ht) by exact Hd.
Qed.

Lemma expiry_armed_elapse_fires (t d : N) (s : State) :
  expiry_armed t s -> t + 3000 <= now s + d ->
  isTyping (elapse d s) = false /\ timers (elapse d s) = [].
Proof.
  intros (Hi & Hnow & id & Ht & Hr) Hd.
  rewrite (elapse_due d s _ Ht) by exact Hd. split; reflexivity.
Qed.

Lemma typingBurst_arms (ch : Channel) (gaps : list N) :
  forall s, Inv s -> channels s = [ch] ->
  let s' := run (step s (TypingEvent (chan_topic ch) (chan_peer ch) true))
                (typingBurst (chan_topic ch) (chan_peer ch) gaps) in
  expiry_armed (now s') s'.
Proof.
  induction gaps as [|gap gaps IH]; intros s HI Hc; cbv zeta.
  - change (run (step s (TypingEvent (chan_topic ch) (chan_peer ch) true))
              (typingBurst (chan_topic ch) (chan_peer ch) []))
      with (step s (TypingEvent (chan_topic ch) (chan_peer ch) true)).
    rewrite (step_TypingEvent_single ch true s Hc).
    destruct (onTyping_true_arms ch s (proj1 HI)) as (Ha & Hn & _).
    now rewrite Hn.
  - change (run (step s (TypingEvent (chan_topic ch) (chan_peer ch) true))
              (typingBurst (chan_topic ch) (chan_peer ch) (gap :: gaps)))
      with (run (step (elapse gap
                         (step s (TypingEvent (chan_topic ch) (chan_peer ch) true)))
                   (TypingEvent (chan_topic ch) (chan_peer ch) true))
              (typingBurst (chan_topic ch) (chan_peer ch) gaps)).
    apply IH.
    + apply Inv_elapse, Inv_step, HI.
    + rewrite elapse_channels, (step_TypingEvent_single ch true s Hc).
      destruct (onTyping_true_arms ch s (proj1 HI)) as (_ & _ & Hch).
      now rewrite Hch.
Qed.

(** X18.  In every reachable state with a logged-in user [u] and a selected
    peer [p]: when a [typing: true] broadcast of [p] arrives on the
    conversation's topic, possibly followed by further such broadcasts, and
    nothing but the passing of time follows (no input change of the user, no
    change of selection), [isTyping] is true and exactly one expiry timer is
    pending, due 3 seconds after the last broadcast (each broadcast replaces
    the timer of the previous one); the flag stays true while less than
    3 seconds pass and is false once 3 seconds have passed. *)
Theorem remote_typing_auto_expiry
    (u0 : option jsstring) (pre : list Event) (u p : jsstring)
    (gaps : list N) :
  let s := run (init u0) pre in
  currentUser s = Some u -> selectedUserId s = Some p -> p <> [] ->
  let s' := run s (TypingEvent (channelName u p) p true
                     :: typingBurst (channelName u p) p gaps) in
  isTyping s' = true
  /\ (exists id,
        timers s' = [mkTimer id (now s' + 3000) HideTyping]
        /\ typingTimeoutRef s' = Some id)
  /\ (forall d, d < 3000 -> isTyping (elapse d s') = true)
  /\ (forall d, 3000 <= d -> isTyping (elapse d s') = false).
Proof.
  intros s Hu Hp Hpne. cbv zeta.
  destruct (reachable_channel u0 pre u p Hu Hp Hpne) as [cid Hc]. fold s in Hc.
  pose proof (typingBurst_arms (mkChannel cid (channelName u p) u p) gaps s
                (Inv_reachable u0 pre) Hc) as Ha.
  cbv zeta in Ha. cbn [chan_topic chan_peer] in Ha.
  change (run s (TypingEvent (channelName u p) p true
                   :: typingBurst (channelName u p) p gaps))
    with (run (step s (TypingEvent (channelName u p) p true))
            (typingBurst (channelName u p) p gaps)).
  set (s' := run _ (typingBurst (channelName u p) p gaps)) in *.
  refine (conj _ (conj _ (conj _ _))).
  - apply Ha.
  - destruct Ha as (_ & _ & id & Ht & Hr). now exists id.
  - intros d Hd. apply (expiry_armed_elapse_before (now s') d s' Ha). lia.
  - intros d Hd. apply (expiry_armed_elapse_fires (now s') d s' Ha). lia.
Qed.

(** U2's [typing: true] at t = 0 and again at t = 1000: the indicator is
    still shown at t = 3999 and hidden at t = 4000. *)
Lemma remote_typing_auto_expiry_witness :
  let s := run (init (Some (js "U1"))) [SelectUser (Some (js "U2"))] in
  let s' := run s (TypingEvent (js "chat-U1-U2") (js "U2") true
                     :: typingBurst (js "chat-U1-U2") (js "U2") [1000]) in
  now s' = 1000
  /\ isTyping (elapse 2999 s') = true
  /\ isTyping (elapse 3000 s') = false.
Proof.
  cbv zeta.
  pose proof (remote_typing_auto_expiry (Some (js "U1"))
                [SelectUser (Some (js "U2"))] (js "U1") (js "U2") [1000]) as H.
  cbv zeta in H.
  destruct H as (_ & _ & Hlt & Hge).
  - reflexivity.
  - reflexivity.
  - discriminate.
  - split; [reflexivity|]. split.
    + apply Hlt. lia.
    + apply Hge. lia.
Defined.

(* ================================================================== *)
(** ** A [typing: false] broadcast of the peer *)

(** C7.  In every reachable state with a logged-in user [u] and
    a selected peer [p], a [typing: false] broadcast of [p] on the
    conversation's topic sets [isTyping] to false and does nothing else: the
    pending timers and the timer handle are as before, so a pending expiry
    timer is not canceled; when it fires later it only sets [isTyping] to
    false again. *)
Theorem C7_typing_false_keeps_timer
    (u0 : option jsstring) (pre : list Event) (u p : jsstring) :
  let s := run (init u0) pre in
  currentUser s = Some u -> selectedUserId s = Some p -> p <> [] ->
  let s' := step s (TypingEvent (channelName u p) p false) in
  s' = set_isTyping false s
  /\ isTyping s' = false
  /\ timers s' = timers s
  /\ typingTimeoutRef s' = typingTimeoutRef s
  /\ (forall t, In t (timers s') -> timer_cb t = HideTyping ->
        isTyping (fire s' t) = false).
Proof.
  intros s Hu Hp Hpne. cbv zeta.
  destruct (reachable_channel u0 pre u p Hu Hp Hpne) as [cid Hc]. fold s in Hc.
  assert (E : step s (TypingEvent (channelName u p) p false)
              = onTyping (mkChannel cid (channelName u p) u p) p false s)
    by exact (step_TypingEvent_single (mkChannel cid (channelName u p) u p)
                false s Hc).
  rewrite E. unfold onTyping. cbn [chan_peer]. rewrite eqb_refl.
  refine (conj _ (conj _ (conj _ (conj _ _)))); try reflexivity.
  intros t _ Hcb. unfold fire, runCallback. rewrite Hcb. reflexivity.
Qed.

(** C7, against the cancellation of the expiry timer: at t = 1000 the timer
    due at t = 3000 is pending; U2's [typing: false] hides the indicator and
    the timer is still pending. *)
Lemma C7_counterexample :
  timers remoteTypingSince1s = [mkTimer 1 3000 HideTyping]
  /\ isTyping (step remoteTypingSince1s
                 (TypingEvent (js "chat-U1-U2") (js "U2") false)) = false
  /\ timers (step remoteTypingSince1s
               (TypingEvent (js "chat-U1-U2") (js "U2") false))
     = [mkTimer 1 3000 HideTyping]
  /\ timers (step remoteTypingSince1s
               (TypingEvent (js "chat-U1-U2") (js "U2") false))
     <> [].
Proof. repeat split. discriminate. Qed.

Lemma C7_witness :
  timers (step remoteTypingSince1s
            (TypingEvent (channelName (js "U1") (js "U2")) (js "U2") false))
  = timers remoteTypingSince1s.
Proof.
  apply (C7_typing_false_keeps_timer (Some (js "U1"))
           [SelectUser (Some (js "U2"));
            TypingEvent (js "chat-U1-U2") (js "U2") true;
            Elapse 1000]
           (js "U1") (js "U2")).
  - reflexivity.
  - reflexivity.
  - discriminate.
Defined.

(* ================================================================== *)
(** ** The explicit send action *)

Lemma fold_fire_sent (l : list Timer) (s : State) :
  exists out,
    sent (fold_left fire l s) = sent s ++ out
    /\ Forall (fun b => payload_isTyping b = false) out.
Proof.
  revert s. induction l as [|t l IH]; simpl; intros s.
  - exists []. now rewrite app_nil_r.
  - destruct (IH (fire s t)) as (out2 & E2 & F2).
    assert (H1 : exists out1,
               sent (fire s t) = sent s ++ out1
               /\ Forall (fun b => payload_isTyping b = false) out1).
    { unfold fire, runCallback. destruct (timer_cb t) as [|user peer].
      - exists []. now rewrite app_nil_r.
      - destruct (sendTypingEvent_sent user peer false
                    (set_now (N.max (now s) (timer_due t)) s))
          as (out & -> & F).
        now exists out. }
    destruct H1 as (out1 & E1 & F1).
    exists (out1 ++ out2). split.
    + now rewrite E2, E1, app_assoc.
    + now apply Forall_app.
Qed.

(** Whatever timers fire while time passes, they only send [typing: false]. *)
Lemma elapse_sent_false (d : N) (s : State) :
  exists out,
    sent (elapse d s) = sent s ++ out
    /\ Forall (fun b => payload_isTyping b = false) out.
Proof.
  unfold elapse. simpl.
  destruct (fold_fire_sent
              (sortTimers (filter (fun t => timer_due t <=? now s + d) (timers s)))
              (set_timers
                 (filter (fun t => negb (timer_due t <=? now s + d)) (timers s))
                 s)) as (out & E & F).
  now exists out.
Qed.

(** C6.  On a send action with a logged-in user, a selected peer
    and a draft that is non-empty after trimming, one [typing: false]
    broadcast is sent at once; the pending timers and the timer handle are as
    before (a pending idle timer is not canceled); whatever fires afterwards
    sends only [typing: false], never [typing: true]. *)
Theorem C6_send_emits_false_keeps_timer (u peer : jsstring) (s : State) :
  currentUser s = Some u -> selectedUserId s = Some peer -> peer <> [] ->
  trim (messageInput s) <> [] ->
  let s' := handleSendMessage s in
  sent s' = sent s ++ [mkBroadcast (now s) (channelName u peer) u false]
  /\ timers s' = timers s
  /\ typingTimeoutRef s' = typingTimeoutRef s
  /\ (forall d, exists out,
        sent (elapse d s') = sent s' ++ out
        /\ Forall (fun b => payload_isTyping b = false) out).
Proof.
  intros Hu Hp Hpne Ht. cbv zeta.
  refine (conj _ (conj _ (conj _ (fun d => elapse_sent_false d _))));
    unfold handleSendMessage, sendTypingEvent; rewrite Hp, Hu;
    apply truthy_true in Hpne, Ht; rewrite Hpne, Ht; reflexivity.
Qed.

Lemma C6_witness :
  sent (handleSendMessage typedHalfSecondAgo)
  = sent typedHalfSecondAgo
      ++ [mkBroadcast 500 (channelName (js "U1") (js "U2")) (js "U1") false].
Proof.
  apply (C6_send_emits_false_keeps_timer (js "U1") (js "U2") typedHalfSecondAgo).
  - reflexivity.
  - reflexivity.
  - discriminate.
  - discriminate.
Defined.

(** C6, against the cancellation of the idle timer: the send at t = 500
    leaves the idle timer of the keystroke at t = 0 pending; it fires at
    t = 2000, after the send has succeeded and cleared the draft, and sends a
    second [typing: false]. *)
Lemma C6_counterexample :
  timers (step typedHalfSecondAgo SendClick)
  = [mkTimer 1 2000 (StopTyping (Some (js "U1")) (Some (js "U2")))]
  /\ timers (step typedHalfSecondAgo SendClick) <> []
  /\ messageInput (run typedHalfSecondAgo [SendClick; SendSucceeded]) = []
  /\ sent (run typedHalfSecondAgo [SendClick; SendSucceeded; Elapse 1500])
     = [mkBroadcast 0 (js "chat-U1-U2") (js "U1") true;
        mkBroadcast 500 (js "chat-U1-U2") (js "U1") false;
        mkBroadcast 2000 (js "chat-U1-U2") (js "U1") false].
Proof. repeat split. discriminate. Qed.

(* ================================================================== *)
(** ** One timer handle for two timers *)

(** C3.  The local idle timer and the remote expiry timer are kept in the one
    handle [typingTimeoutRef], so they are not independent.  With the expiry
    timer of U2's [typing: true] pending, an input change of U1 cancels it
    and [isTyping] stays true however long one waits; with the idle timer of
    U1's input change pending, a [typing: true] of U2 cancels it and no
    [typing: false] is sent however long one waits. *)
Theorem C3_timers_share_one_handle :
  (timers remoteTypingSince1s = [mkTimer 1 3000 HideTyping]
   /\ timers (step remoteTypingSince1s (InputChange (js "a")))
      = [mkTimer 2 3000 (StopTyping (Some (js "U1")) (Some (js "U2")))]
   /\ forall d,
        isTyping (run remoteTypingSince1s [InputChange (js "a"); Elapse d])
        = true)
  /\ (timers typedOneSecondAgo
        = [mkTimer 1 2000 (StopTyping (Some (js "U1")) (Some (js "U2")))]
      /\ timers (step typedOneSecondAgo
                   (TypingEvent (js "chat-U1-U2") (js "U2") true))
         = [mkTimer 2 4000 HideTyping]
      /\ forall d,
           sent (run typedOneSecondAgo
                   [TypingEvent (js "chat-U1-U2") (js "U2") true; Elapse d])
           = [mkBroadcast 0 (js "chat-U1-U2") (js "U1") true]).
Proof.
  split; (split; [reflexivity | split; [reflexivity | intros d]]).
  - change (run remoteTypingSince1s [InputChange (js "a"); Elapse d])
      with (elapse d (step remoteTypingSince1s (InputChange (js "a")))).
    set (s1 := step remoteTypingSince1s (InputChange (js "a"))).
    assert (Ht : timers s1
                 = [mkTimer 2 3000 (StopTyping (Some (js "U1")) (Some (js "U2")))])
      by reflexivity.
    destruct (N.lt_ge_cases (1000 + d) 3000) as [Hlt|Hge].
    + now rewrite (elapse_pending d s1 _ Ht Hlt).
    + now rewrite (elapse_due d s1 _ Ht Hge).
  - change (run typedOneSecondAgo
              [TypingEvent (js "chat-U1-U2") (js "U2") true; Elapse d])
      with (elapse d (step typedOneSecondAgo
                        (TypingEvent (js "chat-U1-U2") (js "U2") true))).
    set (s1 := step typedOneSecondAgo
                 (TypingEvent (js "chat-U1-U2") (js "U2") true)).
    assert (Ht : timers s1 = [mkTimer 2 4000 HideTyping]) by reflexivity.
    destruct (N.lt_ge_cases (1000 + d) 4000) as [Hlt|Hge].
    + now rewrite (elapse_pending d s1 _ Ht Hlt).
    + now rewrite (elapse_due d s1 _ Ht Hge).
Qed.

(** C4.  The [typing: false] due 2 seconds after the last input change is
    lost when a [typing: true] of the peer arrives in between.  U1 types at
    t = 0 and t = 1000, which sends two [typing: true] and leaves the idle
    timer pending, due at t = 3000; U2's [typing: true] at t = 1500 puts its
    expiry timer in the same handle and cancels the idle timer; with no
    further input, however long one waits, no [typing: false] is sent. *)
Theorem C4_idle_timer_cancelled_by_peer_typing :
  sent typedTwice
  = [mkBroadcast 0 (js "chat-U1-U2") (js "U1") true;
     mkBroadcast 1000 (js "chat-U1-U2") (js "U1") true]
  /\ timers typedTwice
     = [mkTimer 2 3000 (StopTyping (Some (js "U1")) (Some (js "U2")))]
  /\ timers (step typedTwice (TypingEvent (js "chat-U1-U2") (js "U2") true))
     = [mkTimer 3 4500 HideTyping]
  /\ forall d,
       sent (run typedTwice
               [TypingEvent (js "chat-U1-U2") (js "U2") true; Elapse d])
       = [mkBroadcast 0 (js "chat-U1-U2") (js "U1") true;
          mkBroadcast 1000 (js "chat-U1-U2") (js "U1") true].
Proof.
  split; [reflexivity | split; [reflexivity | split; [reflexivity | intros d]]].
  change (run typedTwice
            [TypingEvent (js "chat-U1-U2") (js "U2") true; Elapse d])
    with (elapse d (step typedTwice
                      (TypingEvent (js "chat-U1-U2") (js "U2") true))).
  set (s1 := step typedTwice (TypingEvent (js "chat-U1-U2") (js "U2") true)).
  assert (Ht : timers s1 = [mkTimer 3 4500 HideTyping]) by reflexivity.
  destruct (N.lt_ge_cases (1500 + d) 4500) as [Hlt|Hge].
  - now rewrite (elapse_pending d s1 _ Ht Hlt).
  - now rewrite (elapse_due d s1 _ Ht Hge).
Qed.

(** C5.  The automatic expiry of the typing indicator is lost when the user
    types.  U2's [typing: true] at t = 0 and t = 1000 shows the indicator
    and leaves one expiry timer pending, due at t = 4000; an input change of
    U1 at t = 2000 puts its idle timer in the same handle and cancels the
    expiry timer; with no event of U2 following, however long one waits,
    [isTyping] stays true. *)
Theorem C5_expiry_timer_cancelled_by_local_input :
  isTyping remoteTypingTwice = true
  /\ timers remoteTypingTwice = [mkTimer 2 4000 HideTyping]
  /\ timers (step remoteTypingTwice (InputChange (js "a")))
     = [mkTimer 3 4000 (StopTyping (Some (js "U1")) (Some (js "U2")))]
  /\ forall d,
       isTyping (run remoteTypingTwice [InputChange (js "a"); Elapse d])
       = true.
Proof.
  split; [reflexivity | split; [reflexivity | split; [reflexivity | intros d]]].
  change (run remoteTypingTwice [InputChange (js "a"); Elapse d])
    with (elapse d (step remoteTypingTwice (InputChange (js "a")))).
  set (s1 := step remoteTypingTwice (InputChange (js "a"))).
  assert (Ht : timers s1
               = [mkTimer 3 4000 (StopTyping (Some (js "U1")) (Some (js "U2")))])
    by reflexivity.
  destruct (N.lt_ge_cases (2000 + d) 4000) as [Hlt|Hge].
  - now rewrite (elapse_pending d s1 _ Ht Hlt).
  - now rewrite (elapse_due d s1 _ Ht Hge).
Qed.

(** C10.  The handler of a typing broadcast does not keep to the
    remote-typing flag, the expiry timer and the invalidations: it also
    cancels a pending idle timer of the user.  U1 typed "hi" at t = 0, the
    idle timer is due at t = 2000; on U2's [typing: true] at t = 500 the
    draft is still "hi", but the only pending timer is now the expiry timer,
    and the [typing: false] of the idle timer is never sent. *)
Theorem C10_typing_handler_cancels_idle_timer :
  timers typedHalfSecondAgo
  = [mkTimer 1 2000 (StopTyping (Some (js "U1")) (Some (js "U2")))]
  /\ messageInput (step typedHalfSecondAgo
                     (TypingEvent (js "chat-U1-U2") (js "U2") true))
     = js "hi"
  /\ timers (step typedHalfSecondAgo
               (TypingEvent (js "chat-U1-U2") (js "U2") true))
     = [mkTimer 2 3500 HideTyping]
  /\ forall d,
       sent (run typedHalfSecondAgo
               [TypingEvent (js "chat-U1-U2") (js "U2") true; Elapse d])
       = sent typedHalfSecondAgo.
Proof.
  split; [reflexivity | split; [reflexivity | split; [reflexivity | intros d]]].
  change (run typedHalfSecondAgo
            [TypingEvent (js "chat-U1-U2") (js "U2") true; Elapse d])
    with (elapse d (step typedHalfSecondAgo
                      (TypingEvent (js "chat-U1-U2") (js "U2") true))).
  set (s1 := step typedHalfSecondAgo
               (TypingEvent (js "chat-U1-U2") (js "U2") true)).
  assert (Ht : timers s1 = [mkTimer 2 3500 HideTyping]) by reflexivity.
  destruct (N.lt_ge_cases (500 + d) 3500) as [Hlt|Hge].
  - now rewrite (elapse_pending d s1 _ Ht Hlt).
  - now rewrite (elapse_due d s1 _ Ht Hge).
Qed.

(* ================================================================== *)
(** ** Channel topics of different conversations *)

(** The topic is ["chat-"], the smaller identifier, ["-"], the larger one. *)
Lemma channelName_ordered (a b : jsstring) :
  channelName a b
  = if ltb b a then js "chat-" ++ b ++ js "-" ++ a
    else js "chat-" ++ a ++ js "-" ++ b.
Proof.
  unfold channelName, sort. cbn [fold_right insert].
  destruct (ltb b a); reflexivity.
Qed.

Lemma app_inj_same_length {A} (x x' r r' : list A) :
  List.length x = List.length x' -> x ++ r = x' ++ r' -> x = x' /\ r = r'.
Proof.
  revert x'. induction x as [|c x IH]; intros [|c' x'] L E; simpl in *;
    try discriminate; auto.
  injection E as -> E. injection L as L.
  destruct (IH x' L E) as [-> ->]. auto.
Qed.

Lemma app_inj_separator (sep : N) (x x' r r' : list N) :
  ~ In sep x -> ~ In sep x' ->
  x ++ sep :: r = x' ++ sep :: r' -> x = x' /\ r = r'.
Proof.
  revert x'. induction x as [|c x IH]; intros [|c' x'] Hx Hx' E; simpl in *.
  - injection E as ->. auto.
  - injection E as <- _. elim Hx'. auto.
  - injection E as -> _. elim Hx. auto.
  - injection E as -> E.
    destruct (IH x') as [-> ->]; auto.
Qed.

(** Both topics are built from an ordered pair; equal ordered pairs come from
    equal unordered pairs. *)
Lemma ordered_pairs_equal (a b c d lo hi lo' hi' : jsstring) :
  (lo, hi) = (if ltb b a then (b, a) else (a, b)) ->
  (lo', hi') = (if ltb d c then (d, c) else (c, d)) ->
  lo = lo' -> hi = hi' ->
  (a = c /\ b = d) \/ (a = d /\ b = c).
Proof.
  destruct (ltb b a), (ltb d c); intros E1 E2 -> ->;
    injection E1 as -> ->; injection E2 as -> ->; auto.
Qed.

Lemma channelName_parts (a b : jsstring) :
  exists lo hi,
    (lo, hi) = (if ltb b a then (b, a) else (a, b))
    /\ channelName a b = js "chat-" ++ lo ++ js "-" ++ hi.
Proof.
  rewrite channelName_ordered.
  destruct (ltb b a); eexists; eexists; split; reflexivity.
Qed.

(** X1.  For identifiers of one common length (such as UUIDs), two
    conversations have the same topic only if they are between the same two
    users. *)
Theorem channelName_injective_same_length (a b c d : jsstring) :
  List.length a = List.length b -> List.length c = List.length a ->
  List.length d = List.length a ->
  channelName a b = channelName c d ->
  (a = c /\ b = d) \/ (a = d /\ b = c).
Proof.
  intros Lb Lc Ld E.
  destruct (channelName_parts a b) as (lo & hi & P & E1).
  destruct (channelName_parts c d) as (lo' & hi' & P' & E2).
  rewrite E1, E2 in E. apply app_inv_head in E.
  assert (L : List.length lo = List.length lo').
  { destruct (ltb b a), (ltb d c); injection P as -> ->;
      injection P' as -> ->; congruence. }
  destruct (app_inj_same_length lo lo' _ _ L E) as [Hlo Hhi].
  apply app_inv_head in Hhi.
  exact (ordered_pairs_equal a b c d lo hi lo' hi' P P' Hlo Hhi).
Qed.

Lemma channelName_injective_same_length_witness :
  (js "U1" = js "U2" /\ js "U2" = js "U1")
  \/ (js "U1" = js "U1" /\ js "U2" = js "U2").
Proof.
  apply (channelName_injective_same_length (js "U1") (js "U2") (js "U2") (js "U1")).
  - reflexivity.
  - reflexivity.
  - reflexivity.
  - reflexivity.
Defined.

(** X2.  For identifiers that do not contain the separator ["-"], two
    conversations have the same topic only if they are between the same two
    users. *)
Theorem channelName_injective_no_separator (a b c d : jsstring) :
  ~ In 45 a -> ~ In 45 b -> ~ In 45 c -> ~ In 45 d ->
  channelName a b = channelName c d ->
  (a = c /\ b = d) \/ (a = d /\ b = c).
Proof.
  intros Ha Hb Hc Hd E.
  destruct (channelName_parts a b) as (lo & hi & P & E1).
  destruct (channelName_parts c d) as (lo' & hi' & P' & E2).
  rewrite E1, E2 in E. apply app_inv_head in E.
  assert (Hlo : ~ In 45 lo)
    by (destruct (ltb b a); injection P as -> ->; assumption).
  assert (Hlo' : ~ In 45 lo')
    by (destruct (ltb d c); injection P' as -> ->; assumption).
  destruct (app_inj_separator 45 lo lo' hi hi' Hlo Hlo' E) as [E3 E4].
  exact (ordered_pairs_equal a b c d lo hi lo' hi' P P' E3 E4).
Qed.

Lemma channelName_injective_no_separator_witness :
  (js "bob" = js "al" /\ js "al" = js "bob")
  \/ (js "bob" = js "bob" /\ js "al" = js "al").
Proof.
  apply (channelName_injective_no_separator (js "bob") (js "al") (js "al") (js "bob")).
  - simpl; intuition discriminate.
  - simpl; intuition discriminate.
  - simpl; intuition discriminate.
  - simpl; intuition discriminate.
  - reflexivity.
Defined.

(** X3.  With the separator allowed inside identifiers of different lengths
    topics collide: when [a-b] sorts before [c] and [a] before [b-c], the
    conversation between the users [a-b] and [c] and the one between the
    users [a] and [b-c] get the same topic, although for [a <> c] they are
    not between the same two users. *)
Theorem channelName_collision (a b c : jsstring) :
  ltb c (a ++ js "-" ++ b) = false ->
  ltb (b ++ js "-" ++ c) a = false ->
  a <> c ->
  channelName (a ++ js "-" ++ b) c = channelName a (b ++ js "-" ++ c)
  /\ ~ ((a ++ js "-" ++ b = a /\ c = b ++ js "-" ++ c)
        \/ (a ++ js "-" ++ b = b ++ js "-" ++ c /\ c = a)).
Proof.
  intros H1 H2 Hac. rewrite !channelName_ordered, H1, H2. split.
  - now rewrite <- !app_assoc.
  - intros [[E _]|[_ E]]; [|congruence].
    apply (f_equal (@List.length N)) in E.
    rewrite !length_app in E. simpl in E. lia.
Qed.

Lemma channelName_collision_witness :
  channelName (js "a-b") (js "c") = channelName (js "a") (js "b-c")
  /\ ~ ((js "a-b" = js "a" /\ js "c" = js "b-c")
        \/ (js "a-b" = js "b-c" /\ js "c" = js "a")).
Proof.
  apply (channelName_collision (js "a") (js "b") (js "c")).
  - reflexivity.
  - reflexivity.
  - discriminate.
Defined.

(* ================================================================== *)
(** ** What a send puts in a request *)

Lemma trim_start_nil (l : jsstring) :
  trim_start l = [] <-> forallb is_white_space l = true.
Proof.
  induction l as [|c l IH]; simpl; [tauto|].
  destruct (is_white_space c); simpl; [exact IH | split; discriminate].
Qed.

Lemma trim_start_head (l : jsstring) (c : N) (r : jsstring) :
  trim_start l = c :: r -> is_white_space c = false.
Proof.
  induction l as [|x l IH]; simpl; [discriminate|].
  destruct (is_white_space x) eqn:W; [exact IH|].
  intros E. injection E as <- _. exact W.
Qed.

Lemma trim_start_suffix (l : jsstring) :
  exists p, l = p ++ trim_start l.
Proof.
  induction l as [|x l [p IH]]; simpl.
  - now exists [].
  - destruct (is_white_space x).
    + exists (x :: p). simpl. now f_equal.
    + now exists [].
Qed.

Lemma trim_start_idem (l : jsstring) : trim_start (trim_start l) = trim_start l.
Proof.
  destruct (trim_start l) as [|c r] eqn:E; trivial.
  simpl. now rewrite (trim_start_head l c r E).
Qed.

Lemma forallb_rev {A} (f : A -> bool) (l : list A) :
  forallb f (rev l) = forallb f l.
Proof.
  induction l as [|x l IH]; simpl; trivial.
  rewrite forallb_app, IH. simpl. rewrite andb_true_r. apply andb_comm.
Qed.

(** [trim] gives the empty string exactly for drafts made of white space. *)
Lemma trim_nil (m : jsstring) :
  trim m = [] <-> forallb is_white_space m = true.
Proof.
  unfold trim.
  assert (R : rev (trim_start (rev (trim_start m))) = []
              <-> trim_start (rev (trim_start m)) = []).
  { split.
    - intros E. apply (f_equal (@rev N)) in E.
      now rewrite rev_involutive in E.
    - now intros ->. }
  rewrite R, (trim_start_nil (rev (trim_start m))), forallb_rev,
    <- (trim_start_nil (trim_start m)), trim_start_idem.
  apply trim_start_nil.
Qed.

Lemma trim_trimmed (m : jsstring) : trim m <> [] -> trimmed (trim m).
Proof.
  intros Hne. split; [exact Hne|]. unfold trim in *.
  set (t := trim_start m) in *. set (v := trim_start (rev t)) in *.
  split.
  - intros c r E.
    destruct (trim_start_suffix (rev t)) as [p Hp]. fold v in Hp.
    apply (f_equal (@rev N)) in Hp.
    rewrite rev_involutive, rev_app_distr, E in Hp. simpl in Hp.
    exact (trim_start_head m c _ Hp).
  - intros c r E.
    apply (f_equal (@rev N)) in E.
    rewrite rev_involutive, rev_app_distr in E. simpl in E.
    exact (trim_start_head (rev t) c _ E).
Qed.

(* ------------------------------------------------------------------ *)
(** *** Fields that time passing does not touch *)

Lemma elapse_frame {A} (f : State -> A) :
  (forall s v, f (set_now v s) = f s) ->
  (forall s v, f (set_timers v s) = f s) ->
  (forall s v, f (set_isTyping v s) = f s) ->
  (forall s v, f (set_sent v s) = f s) ->
  forall d s, f (elapse d s) = f s.
Proof.
  intros Hn Ht Hi Hs d s. unfold elapse. rewrite Hn.
  rewrite <- (Ht s (filter (fun t => negb (timer_due t <=? now s + d)) (timers s))).
  generalize (set_timers
                (filter (fun t => negb (timer_due t <=? now s + d)) (timers s)) s).
  generalize (sortTimers (filter (fun t => timer_due t <=? now s + d) (timers s))).
  intros l. induction l as [|t l IH]; simpl; intros s0; trivial.
  rewrite IH. unfold fire, runCallback.
  destruct (timer_cb t) as [|user peer].
  - now rewrite Hi, Hn.
  - destruct (sendTypingEvent_sent user peer false
                (set_now (N.max (now s0) (timer_due t)) s0)) as (out & -> & _).
    now rewrite Hs, Hn.
Qed.

Lemma sendTypingEvent_frame {A} (f : State -> A) user peer typing (s : State) :
  (forall s v, f (set_sent v s) = f s) ->
  f (sendTypingEvent user peer typing s) = f s.
Proof.
  intros Hs.
  destruct (sendTypingEvent_sent user peer typing s) as (out & -> & _).
  apply Hs.
Qed.

Lemma clearTypingTimeout_frame {A} (f : State -> A) (s : State) :
  (forall s v, f (set_timers v s) = f s) ->
  f (clearTypingTimeout s) = f s.
Proof.
  intros Ht. unfold clearTypingTimeout, clearTimeout.
  destruct (typingTimeoutRef s); trivial.
Qed.

Lemma rerunEffect_requests (s : State) : requests (rerunEffect s) = requests s.
Proof.
  unfold rerunEffect, cleanupEffect, subscribeEffect, clearTypingTimeout.
  destruct s as [cu sel mi it ref sub nw tms nt chs nc lg snt inv rq]; simpl.
  destruct sub, ref, cu, sel as [p|]; simpl; trivial;
    destruct (truthy p); trivial.
Qed.

Lemma handleInputChange_requests (value : jsstring) (s : State) :
  requests (handleInputChange value s) = requests s.
Proof.
  unfold handleInputChange. destruct (Nat.ltb 0 (List.length value)).
  - unfold setTimeout. simpl.
    rewrite (clearTypingTimeout_frame requests) by reflexivity.
    now rewrite (sendTypingEvent_frame requests) by reflexivity.
  - now rewrite (sendTypingEvent_frame requests) by reflexivity.
Qed.

Lemma handleSendMessage_requests (s : State) :
  (handleSendMessage s = s
   /\ (trim (messageInput s) = [] \/ opt_truthy (selectedUserId s) = false))
  \/ (exists p,
        selectedUserId s = Some p /\ p <> [] /\ trim (messageInput s) <> []
        /\ requests (handleSendMessage s)
           = requests s ++ [(p, trim (messageInput s))]
        /\ messageInput (handleSendMessage s) = messageInput s).
Proof.
  unfold handleSendMessage.
  destruct (selectedUserId s) as [p|] eqn:Hp; [|left; auto].
  destruct (truthy (trim (messageInput s))) eqn:Ht;
    [|left; split; trivial; left; now destruct (trim (messageInput s))].
  destruct (truthy p) eqn:Hpt; simpl; [|left; auto].
  right. exists p. apply truthy_true in Hpt, Ht.
  repeat split; trivial.
  - simpl. rewrite (sendTypingEvent_frame requests) by reflexivity.
    now rewrite (sendTypingEvent_frame messageInput) by reflexivity.
  - simpl. now rewrite (sendTypingEvent_frame messageInput) by reflexivity.
Qed.

Lemma step_requests (s : State) (e : Event) :
  e <> SendClick -> requests (step s e) = requests s.
Proof.
  intros He. destruct e; simpl; try congruence.
  - now rewrite rerunEffect_requests.
  - unfold setSelectedUserId. destruct (opt_eqb v (selectedUserId s)); trivial.
    now rewrite rerunEffect_requests.
  - apply handleInputChange_requests.
  - apply (frame_fold _ _ (fun s ch => onInsert_frame ch _ _ s)).
  - apply (frame_fold _ _ (fun s ch => onTyping_frame ch _ _ s)).
  - apply (elapse_frame requests); reflexivity.
Qed.

(** X4.  Every create-message request ever issued in a session has a
    non-empty receiver and a content that is not empty and has no white space
    at either end. *)
Theorem requests_well_formed (u0 : option jsstring) (es : list Event) :
  Forall (fun r => fst r <> [] /\ trimmed (snd r))
         (requests (run (init u0) es)).
Proof.
  unfold run.
  assert (H : Forall (fun r : jsstring * jsstring => fst r <> [] /\ trimmed (snd r))
                (requests (init u0))) by constructor.
  revert H. generalize (init u0).
  induction es as [|e es IH]; simpl; intros s H; trivial.
  apply IH.
  destruct e; try (rewrite step_requests by discriminate; exact H).
  simpl. destruct (handleSendMessage_requests s)
    as [[-> _]|(p & Hp & Hpne & Ht & -> & _)]; trivial.
  apply Forall_app. split; trivial.
  constructor; [|constructor]. simpl. split; trivial.
  now apply trim_trimmed.
Qed.

(** X5.  The only event that issues a create-message request is the send
    action, and it issues one exactly when a non-empty peer is selected and
    the draft has a code unit that is not white space. *)
Theorem request_issued_iff (s : State) (e : Event) :
  requests (step s e) <> requests s <->
  e = SendClick
  /\ opt_truthy (selectedUserId s) = true
  /\ forallb is_white_space (messageInput s) = false.
Proof.
  split.
  - intros H.
    assert (He : e = SendClick).
    { destruct e; trivial; elim H; apply step_requests; discriminate. }
    subst e. split; trivial. simpl in H.
    destruct (handleSendMessage_requests s)
      as [[E _]|(p & Hp & Hpne & Ht & _)].
    + elim H. now rewrite E.
    + rewrite Hp. simpl. split; [now apply truthy_true|].
      destruct (forallb is_white_space (messageInput s)) eqn:W; trivial.
      elim Ht. now apply trim_nil.
  - intros (-> & Hsel & Hw). simpl.
    destruct (handleSendMessage_requests s)
      as [[_ [E|E]]|(p & _ & _ & _ & -> & _)].
    + apply trim_nil in E. congruence.
    + congruence.
    + apply app_neq_self.
Qed.

Lemma request_issued_iff_witness :
  SendClick = SendClick
  /\ opt_truthy (selectedUserId typedHalfSecondAgo) = true
  /\ forallb is_white_space (messageInput typedHalfSecondAgo) = false.
Proof.
  apply (proj1 (request_issued_iff typedHalfSecondAgo SendClick)).
  discriminate.
Defined.

(* ================================================================== *)
(** ** The Enter key *)

(** X6.  A key press calls [preventDefault] exactly for Enter without Shift;
    any other key, and Shift+Enter, leaves the state as it is; a request is
    issued exactly for Enter without Shift with a non-empty peer selected and
    a draft that is not all white space. *)
Theorem handleKeyPress_spec (key : jsstring) (shiftKey : bool) (s : State) :
  (fst (handleKeyPress key shiftKey s) = true
   <-> key = js "Enter" /\ shiftKey = false)
  /\ (~ (key = js "Enter" /\ shiftKey = false) ->
        snd (handleKeyPress key shiftKey s) = s)
  /\ (requests (snd (handleKeyPress key shiftKey s)) <> requests s
      <-> key = js "Enter" /\ shiftKey = false
          /\ opt_truthy (selectedUserId s) = true
          /\ forallb is_white_space (messageInput s) = false).
Proof.
  pose proof (request_issued_iff s SendClick) as R. simpl in R.
  unfold handleKeyPress.
  destruct (eqb_spec key (js "Enter")) as [->|Hk], shiftKey; simpl.
  - repeat split; try tauto; try congruence; intros; intuition congruence.
  - repeat split; try tauto; intros; intuition congruence.
  - repeat split; try tauto; try congruence; intros; intuition congruence.
  - repeat split; try tauto; try congruence; intros; intuition congruence.
Qed.

(** Shift+Enter on a sendable draft sends nothing. *)
Lemma handleKeyPress_spec_witness :
  snd (handleKeyPress (js "Enter") true typedHalfSecondAgo)
  = typedHalfSecondAgo.
Proof.
  apply (proj1 (proj2 (handleKeyPress_spec (js "Enter") true
                         typedHalfSecondAgo))).
  intros [_ H]. discriminate H.
Defined.

(** X7.  The send action does not look at the pending state of the mutation
    and leaves the draft in place until the send succeeds: pressing Enter
    twice issues the same request twice, and in between the send button is
    disabled by [isPending] alone. *)
Theorem double_send (p : jsstring) (s : State) :
  selectedUserId s = Some p -> p <> [] -> trim (messageInput s) <> [] ->
  let s1 := snd (handleKeyPress (js "Enter") false s) in
  let s2 := snd (handleKeyPress (js "Enter") false s1) in
  messageInput s1 = messageInput s
  /\ (forall isPending, sendDisabled isPending s1 = isPending)
  /\ requests s2
     = requests s ++ [(p, trim (messageInput s)); (p, trim (messageInput s))].
Proof.
  intros Hp Hpne Ht. cbv zeta.
  change (snd (handleKeyPress (js "Enter") false s)) with (handleSendMessage s).
  change (snd (handleKeyPress (js "Enter") false (handleSendMessage s)))
    with (handleSendMessage (handleSendMessage s)).
  destruct (handleSendMessage_requests s)
    as [[_ [E|E]]|(p1 & Hp1 & _ & _ & R1 & M1)].
  - congruence.
  - rewrite Hp in E. simpl in E. apply truthy_true in Hpne. congruence.
  - assert (p1 = p) by congruence. subst p1.
    assert (Hsel1 : selectedUserId (handleSendMessage s) = Some p).
    { destruct (handleSendMessage_session s) as (_ & -> & _). exact Hp. }
    split; [exact M1|]. split.
    + intros isPending. unfold sendDisabled. rewrite M1.
      apply truthy_true in Ht. now rewrite Ht.
    + destruct (handleSendMessage_requests (handleSendMessage s))
        as [[_ [E|E]]|(p2 & Hp2 & _ & _ & R2 & _)].
      * rewrite M1 in E. congruence.
      * rewrite Hsel1 in E. simpl in E. apply truthy_true in Hpne. congruence.
      * assert (p2 = p) by congruence. subst p2.
        rewrite R2, R1, M1, <- app_assoc. reflexivity.
Qed.

Lemma double_send_witness :
  requests (snd (handleKeyPress (js "Enter") false
                   (snd (handleKeyPress (js "Enter") false typedHalfSecondAgo))))
  = requests typedHalfSecondAgo
      ++ [(js "U2", trim (messageInput typedHalfSecondAgo));
          (js "U2", trim (messageInput typedHalfSecondAgo))].
Proof.
  apply (double_send (js "U2") typedHalfSecondAgo).
  - reflexivity.
  - discriminate.
  - discriminate.
Defined.

(* ================================================================== *)
(** ** A send and its success *)

(** X8.  A send followed by its success: one request with the trimmed draft,
    one [typing: false], the thread of the peer and the conversation list
    invalidated, the draft empty; after that the send button is disabled and
    a further send action changes nothing. *)
Theorem send_then_success (u p : jsstring) (s : State) :
  currentUser s = Some u -> selectedUserId s = Some p -> p <> [] ->
  trim (messageInput s) <> [] ->
  let s' := run s [SendClick; SendSucceeded] in
  messageInput s' = []
  /\ requests s' = requests s ++ [(p, trim (messageInput s))]
  /\ invalidated s'
     = invalidated s ++ [MessagesKey (Some p); ConversationsKey]
  /\ sent s' = sent s ++ [mkBroadcast (now s) (channelName u p) u false]
  /\ (forall isPending, sendDisabled isPending s' = true)
  /\ step s' SendClick = s'.
Proof.
  intros Hu Hp Hpne Ht. cbv zeta. unfold run. simpl.
  unfold handleSendMessage, sendTypingEvent. rewrite Hp, Hu.
  apply truthy_true in Hpne, Ht. rewrite Hpne, Ht. simpl.
  rewrite Hp, <- app_assoc. repeat split.
Qed.

Lemma send_then_success_witness :
  step (run typedHalfSecondAgo [SendClick; SendSucceeded]) SendClick
  = run typedHalfSecondAgo [SendClick; SendSucceeded].
Proof.
  apply (send_then_success (js "U1") (js "U2") typedHalfSecondAgo).
  - reflexivity.
  - reflexivity.
  - discriminate.
  - discriminate.
Defined.

(* ================================================================== *)
(** ** The conversation shown in the chat area *)

Section ConversationFacts.

Variables Profile Message : Type.
Variable profile_id : Profile -> jsstring.

(** X9.  With no peer selected there is no conversation and no chat area.
    With peer [p] selected: a row of the conversation list whose user is [p]
    wins (the first one), whatever the profile query holds; without such a
    row the conversation is made from the loaded profile, with no last
    message; and there is none exactly when there is neither such a row nor a
    loaded profile. *)
Theorem selectedConversation_spec
    (conversations : list (Conversation Profile Message))
    (selectedUserProfile : option Profile) :
  (forall selected,
     opt_truthy selected = false ->
     selectedConversation Profile Message profile_id selected conversations selectedUserProfile = None
     /\ chatShown Profile Message profile_id
          selected conversations selectedUserProfile = false)
  /\ (forall p, p <> [] ->
        let r := selectedConversation Profile Message profile_id (Some p) conversations selectedUserProfile in
        (forall c,
           In c conversations -> isConversationWith Profile Message profile_id p c = true ->
           exists c',
             r = Some c' /\ In c' conversations
             /\ exists usr, conv_user _ _ c' = Some usr /\ profile_id usr = p)
        /\ ((forall c, In c conversations -> isConversationWith Profile Message profile_id p c = false) ->
              r = match selectedUserProfile with
                  | Some prof => Some (mkConversation _ _ (Some prof) None)
                  | None => None
                  end)
        /\ (r = None <->
              selectedUserProfile = None
              /\ forall c, In c conversations -> isConversationWith Profile Message profile_id p c = false)).
Proof.
  split.
  - intros selected H. unfold chatShown. rewrite H. split; trivial.
    unfold selectedConversation.
    destruct selected as [sel|]; trivial. simpl in H. now rewrite H.
  - intros p Hp. cbv zeta. unfold selectedConversation.
    apply truthy_true in Hp. rewrite Hp.
    destruct (find (isConversationWith Profile Message profile_id p) conversations) as [c0|] eqn:F.
    + apply find_some in F. destruct F as [Hin Hw].
      refine (conj _ (conj _ _)).
      * intros c _ _. exists c0. repeat split; trivial.
        unfold isConversationWith in Hw.
        destruct (conv_user _ _ c0) as [usr|]; [|discriminate].
        exists usr. split; trivial. now apply eqb_eq.
      * intros Hno. rewrite (Hno c0 Hin) in Hw. discriminate.
      * split; [discriminate|]. intros [_ Hno].
        rewrite (Hno c0 Hin) in Hw. discriminate.
    + pose proof (find_none _ _ F) as Hno.
      refine (conj _ (conj _ _)).
      * intros c Hin Hw. rewrite (Hno c Hin) in Hw. discriminate.
      * intros _. reflexivity.
      * destruct selectedUserProfile; split; try discriminate; auto.
        intros [E _]. discriminate.
Qed.

End ConversationFacts.

(** A non-empty list whose only row is with U2, no profile loaded. *)
Lemma selectedConversation_spec_witness :
  exists c',
    selectedConversation unit unit (fun _ => js "U2") (Some (js "U2"))
      [mkConversation unit unit (Some tt) None] None = Some c'
    /\ In c' [mkConversation unit unit (Some tt) None]
    /\ exists usr, conv_user _ _ c' = Some usr /\ js "U2" = js "U2".
Proof.
  apply (proj1 (proj2 (selectedConversation_spec unit unit (fun _ => js "U2")
                         [mkConversation unit unit (Some tt) None] None)
                  (js "U2") ltac:(discriminate))
           (mkConversation unit unit (Some tt) None)).
  - left. reflexivity.
  - reflexivity.
Defined.

(* ================================================================== *)
(** ** The live channel, the queries and the URL parameter *)

Lemma loggedIn_true (s : State) :
  loggedIn s = true <-> exists u, currentUser s = Some u.
Proof.
  unfold loggedIn. destruct (currentUser s) as [u|]; split;
    try discriminate; eauto.
  intros [u H]. discriminate.
Qed.

Lemma messagesEnabled_true (s : State) :
  messagesEnabled s = true <->
  exists u p, currentUser s = Some u /\ selectedUserId s = Some p /\ p <> [].
Proof.
  unfold messagesEnabled, loggedIn, opt_truthy.
  destruct (currentUser s) as [u|], (selectedUserId s) as [p|]; simpl;
    rewrite ?andb_false_r, ?andb_true_r.
  - rewrite truthy_true. split.
    + intros H. now exists u, p.
    + intros (u' & p' & _ & E & H). congruence.
  - split; [discriminate|]. intros (u' & p' & _ & E & _). discriminate.
  - split; [discriminate|]. intros (u' & p' & E & _). discriminate.
  - split; [discriminate|]. intros (u' & p' & E & _). discriminate.
Qed.

(** X10.  In every reachable state a realtime channel is live exactly when
    the messages query is enabled, that is when a user is logged in and a
    non-empty peer is selected; it is then the one channel of their
    conversation, the query fetches the messages of that peer, and the
    conversations query is enabled as well.  Otherwise no channel is live. *)
Theorem channel_live_iff_enabled (u0 : option jsstring) (es : list Event) :
  let s := run (init u0) es in
  (messagesEnabled s = true ->
     conversationsEnabled s = true
     /\ exists u p id,
          currentUser s = Some u /\ selectedUserId s = Some p
          /\ messagesQueryFn s = Some p
          /\ channels s = [mkChannel id (channelName u p) u p])
  /\ (messagesEnabled s = false -> channels s = [])
  /\ (channels s <> [] <-> messagesEnabled s = true).
Proof.
  cbv zeta. set (s := run (init u0) es).
  assert (A : messagesEnabled s = true ->
     conversationsEnabled s = true
     /\ exists u p id,
          currentUser s = Some u /\ selectedUserId s = Some p
          /\ messagesQueryFn s = Some p
          /\ channels s = [mkChannel id (channelName u p) u p]).
  { intros H. apply messagesEnabled_true in H.
    destruct H as (u & p & Hu & Hp & Hpne).
    destruct (reachable_channel u0 es u p Hu Hp Hpne) as [id Hc].
    split.
    - unfold conversationsEnabled, loggedIn. fold s. now rewrite Hu.
    - exists u, p, id. repeat split; trivial.
      unfold messagesQueryFn. rewrite Hp.
      apply truthy_true in Hpne. now rewrite Hpne. }
  assert (B : messagesEnabled s = false -> channels s = []).
  { intros H.
    destruct (Inv_reachable u0 es) as [_ [Hc _]]. fold s in Hc.
    pose proof (subscription_current_reachable u0 es) as Hs. fold s in Hs.
    unfold subscription_current in Hs.
    unfold messagesEnabled, loggedIn, opt_truthy in H.
    destruct (currentUser s) as [u|], (selectedUserId s) as [p|];
      simpl in H; rewrite ?andb_true_r in H;
      try (rewrite H in Hs); rewrite Hs in Hc; exact Hc. }
  refine (conj A (conj B _)). split.
  - intros Hne. destruct (messagesEnabled s) eqn:E; trivial.
    elim Hne. now apply B.
  - intros H. destruct (A H) as (_ & u & p & id & _ & _ & _ & ->). discriminate.
Qed.

Lemma channel_live_iff_enabled_witness :
  channels (run (init (Some (js "U1")))
              [SelectUser (Some (js "U2")); SelectUser None]) = [].
Proof.
  apply (proj1 (proj2 (channel_live_iff_enabled (Some (js "U1"))
                         [SelectUser (Some (js "U2")); SelectUser None]))).
  reflexivity.
Defined.

Lemma run_snoc (s : State) (es : list Event) (e : Event) :
  run s (es ++ [e]) = step (run s es) e.
Proof. unfold run. now rewrite fold_left_app. Qed.

Lemma setSelectedUserId_selected (v : option jsstring) (s : State) :
  selectedUserId (setSelectedUserId v s) = v
  /\ currentUser (setSelectedUserId v s) = currentUser s.
Proof.
  unfold setSelectedUserId.
  destruct (opt_eqb v (selectedUserId s)) eqn:E.
  - split; trivial.
    destruct v as [x|], (selectedUserId s) as [y|]; simpl in E;
      try discriminate; trivial.
    apply eqb_eq in E. now subst.
  - unfold rerunEffect, cleanupEffect, subscribeEffect, clearTypingTimeout.
    destruct s as [cu sel mi it ref sub nw tms nt chs nc lg snt inv rq]; simpl.
    destruct sub, ref, cu, v as [p|]; simpl; auto;
      destruct (truthy p); auto.
Qed.

(** X11.  The URL effect never clears a selection: without a [user]
    parameter, or with an empty one, it leaves the state as it is.  With a
    non-empty one it selects that user, and for a logged-in user the one live
    channel afterwards is the channel of the conversation with that user. *)
Theorem locationEffect_spec
    (u0 : option jsstring) (es : list Event) (targetUserId : option jsstring) :
  let s := run (init u0) es in
  let s' := locationEffect targetUserId s in
  (opt_truthy targetUserId = false -> s' = s)
  /\ (forall t, targetUserId = Some t -> t <> [] ->
        selectedUserId s' = Some t
        /\ forall u, currentUser s = Some u ->
             exists id, channels s' = [mkChannel id (channelName u t) u t]).
Proof.
  cbv zeta. unfold locationEffect. split.
  - now intros ->.
  - intros t -> Ht. apply truthy_true in Ht as Htt. simpl. rewrite Htt.
    destruct (setSelectedUserId_selected (Some t) (run (init u0) es))
      as [Hsel Hcu].
    split; trivial. intros u Hu.
    change (setSelectedUserId (Some t) (run (init u0) es))
      with (step (run (init u0) es) (SelectUser (Some t))) in *.
    rewrite <- run_snoc in *.
    apply reachable_channel; trivial. congruence.
Qed.

Lemma locationEffect_spec_witness :
  locationEffect (Some [])
    (run (init (Some (js "U1"))) [SelectUser (Some (js "U2"))])
  = run (init (Some (js "U1"))) [SelectUser (Some (js "U2"))].
Proof.
  apply (proj1 (locationEffect_spec (Some (js "U1"))
                  [SelectUser (Some (js "U2"))] (Some []))).
  reflexivity.
Defined.

(* ================================================================== *)
(** ** Typing broadcasts that are not for this conversation *)




(* ================================================================== *)
(** ** Switching the conversation while the indicator is shown *)

Lemma elapse_none (d : N) (s : State) :
  timers s = [] -> elapse d s = set_now (now s + d) s.
Proof.
  intros H. unfold elapse. rewrite H. simpl.
  destruct s; simpl in *; now subst.
Qed.

Lemma rerunEffect_isTyping (s : State) : isTyping (rerunEffect s) = isTyping s.
Proof.
  unfold rerunEffect, cleanupEffect, subscribeEffect, clearTypingTimeout.
  destruct s as [cu sel mi it ref sub nw tms nt chs nc lg snt inv rq]; simpl.
  destruct sub, ref, cu, sel as [p|]; simpl; trivial;
    destruct (truthy p); trivial.
Qed.

Lemma subscribeEffect_timers (s : State) :
  timers (subscribeEffect s) = timers s /\ now (subscribeEffect s) = now s.
Proof.
  unfold subscribeEffect.
  destruct (currentUser s), (selectedUserId s) as [p|]; auto.
  destruct (truthy p); auto.
Qed.

(** The cleanup of a mounted effect cancels the pending timer. *)
Lemma rerunEffect_clears (s : State) (ch : Channel) :
  subscription s = Some ch -> timers_in_ref s -> timers (rerunEffect s) = [].
Proof.
  intros Hs Hin. unfold rerunEffect.
  rewrite (proj1 (subscribeEffect_timers _)).
  unfold cleanupEffect. rewrite Hs.
  now rewrite (clearTypingTimeout_all s Hin).
Qed.

Lemma rerunEffect_keeps (s : State) :
  subscription s = None -> timers (rerunEffect s) = timers s.
Proof.
  intros Hs. unfold rerunEffect.
  rewrite (proj1 (subscribeEffect_timers _)).
  unfold cleanupEffect. now rewrite Hs.
Qed.

Lemma reachable_subscription (u0 : option jsstring) (es : list Event) :
  messagesEnabled (run (init u0) es) = true ->
  exists ch, subscription (run (init u0) es) = Some ch.
Proof.
  intros H. apply messagesEnabled_true in H.
  destruct H as (u & p & Hu & Hp & Hpne).
  pose proof (subscription_current_reachable u0 es) as Hs.
  unfold subscription_current in Hs. rewrite Hu, Hp in Hs.
  apply truthy_true in Hpne. rewrite Hpne in Hs.
  destruct Hs as [id Hs]. eauto.
Qed.

(** X13.  Selecting another peer (or none) while the typing indicator of the
    active conversation is shown cancels the expiry timer but does not reset
    the flag: with no timer left, [isTyping] stays true however long one
    waits, until a typing broadcast of the new peer arrives. *)
Theorem switch_keeps_indicator
    (u0 : option jsstring) (es : list Event) (v : option jsstring) :
  let s := run (init u0) es in
  isTyping s = true -> messagesEnabled s = true -> v <> selectedUserId s ->
  let s' := step s (SelectUser v) in
  isTyping s' = true
  /\ timers s' = []
  /\ forall d, isTyping (elapse d s') = true.
Proof.
  intros s Hi He Hv. cbv zeta.
  assert (E : step s (SelectUser v) = rerunEffect (set_selectedUserId v s)).
  { simpl. unfold setSelectedUserId.
    now rewrite (opt_eqb_false v (selectedUserId s) Hv). }
  rewrite E. clear E.
  destruct (reachable_subscription u0 es He) as [ch Hs]. fold s in Hs.
  destruct (Inv_reachable u0 es) as [Hin _]. fold s in Hin.
  assert (Ht : timers (rerunEffect (set_selectedUserId v s)) = [])
    by exact (rerunEffect_clears (set_selectedUserId v s) ch Hs Hin).
  assert (Hi' : isTyping (rerunEffect (set_selectedUserId v s)) = true)
    by (rewrite rerunEffect_isTyping; exact Hi).
  refine (conj Hi' (conj Ht _)).
  intros d. rewrite (elapse_none d _ Ht). exact Hi'.
Qed.

(** U2 is typing; U1 switches to U3. *)
Lemma switch_keeps_indicator_witness :
  isTyping (step remoteTypingSince1s (SelectUser (Some (js "U3")))) = true
  /\ timers (step remoteTypingSince1s (SelectUser (Some (js "U3")))) = []
  /\ forall d,
       isTyping (elapse d (step remoteTypingSince1s
                             (SelectUser (Some (js "U3"))))) = true.
Proof.
  apply (switch_keeps_indicator (Some (js "U1"))
           [SelectUser (Some (js "U2"));
            TypingEvent (js "chat-U1-U2") (js "U2") true;
            Elapse 1000]
           (Some (js "U3"))).
  - reflexivity.
  - reflexivity.
  - discriminate.
Defined.

(* ================================================================== *)
(** ** Emptying the draft *)

Lemma handleInputChange_empty (u p : jsstring) (s : State) :
  currentUser s = Some u -> selectedUserId s = Some p -> p <> [] ->
  handleInputChange [] s
  = set_sent (sent s ++ [mkBroadcast (now s) (channelName u p) u false])
      (set_messageInput [] s).
Proof.
  intros Hu Hp Hpne. unfold handleInputChange, sendTypingEvent. simpl.
  rewrite Hu, Hp. apply truthy_true in Hpne. now rewrite Hpne.
Qed.

(** X14.  Emptying the draft sends [typing: false] at once but does not
    cancel the idle timer: after an input change at time [t] and the emptying
    of the draft less than 2 seconds later, the timer of the input change is
    still pending and sends a second [typing: false] at [t + 2000]. *)
Theorem empty_draft_keeps_idle_timer
    (u0 : option jsstring) (pre : list Event)
    (u p value : jsstring) (gap : N) :
  let s := run (init u0) pre in
  currentUser s = Some u -> selectedUserId s = Some p -> p <> [] ->
  value <> [] -> gap < 2000 ->
  let s' := run s [InputChange value; Elapse gap; InputChange []] in
  messageInput s' = []
  /\ sent s'
     = sent s ++ [mkBroadcast (now s) (channelName u p) u true;
                  mkBroadcast (now s + gap) (channelName u p) u false]
  /\ (exists id,
        timers s' = [mkTimer id (now s + 2000) (StopTyping (Some u) (Some p))])
  /\ (forall d, 2000 <= gap + d ->
        sent (elapse d s')
        = sent s' ++ [mkBroadcast (now s + 2000) (channelName u p) u false]).
Proof.
  intros s Hu Hp Hpne Hv Hgap. cbv zeta.
  destruct (Inv_reachable u0 pre) as [Hin _]. fold s in Hin.
  destruct (handleInputChange_arms u p value s Hin Hu Hp Hpne Hv)
    as (Ha1 & Hn1 & Hs1).
  destruct (idle_armed_elapse_before u p (now s) gap _ Ha1)
    as (Ha2 & Hn2 & Hs2); [lia|].
  change (run s [InputChange value; Elapse gap; InputChange []])
    with (handleInputChange [] (elapse gap (handleInputChange value s))).
  set (s2 := elapse gap (handleInputChange value s)) in *.
  pose proof Ha2 as (Hu2 & Hp2 & _ & Hnow2 & id & Ht2 & Hr2).
  rewrite (handleInputChange_empty u p s2 Hu2 Hp2 Hpne).
  assert (Ha3 : idle_armed u p (now s)
                  (set_sent (sent s2 ++ [mkBroadcast (now s2) (channelName u p) u false])
                     (set_messageInput [] s2))).
  { unfold idle_armed. simpl. repeat split; trivial. now exists id. }
  refine (conj eq_refl (conj _ (conj _ _))).
  - cbn [sent set_sent]. rewrite Hs2, Hs1, Hn2, Hn1, <- app_assoc. reflexivity.
  - exists id. exact Ht2.
  - intros d Hd.
    apply (idle_armed_elapse_fires u p (now s) d _ Ha3).
    cbn [now set_sent set_messageInput]. rewrite Hn2, Hn1. lia.
Qed.

Lemma empty_draft_keeps_idle_timer_witness :
  sent (elapse 1500
          (run (run (init (Some (js "U1"))) [SelectUser (Some (js "U2"))])
             [InputChange (js "a"); Elapse 500; InputChange []]))
  = sent (run (run (init (Some (js "U1"))) [SelectUser (Some (js "U2"))])
            [InputChange (js "a"); Elapse 500; InputChange []])
      ++ [mkBroadcast 2000 (js "chat-U1-U2") (js "U1") false].
Proof.
  apply (empty_draft_keeps_idle_timer (Some (js "U1"))
           [SelectUser (Some (js "U2"))] (js "U1") (js "U2") (js "a") 500).
  - reflexivity.
  - reflexivity.
  - discriminate.
  - discriminate.
  - reflexivity.
  - discriminate.
Defined.

(* ================================================================== *)
(** ** The pending timer *)

Lemma fold_fire_frame {A} (f : State -> A) :
  (forall s v, f (set_now v s) = f s) ->
  (forall s v, f (set_isTyping v s) = f s) ->
  (forall s v, f (set_sent v s) = f s) ->
  forall l s, f (fold_left fire l s) = f s.
Proof.
  intros Hn Hi Hs l. induction l as [|t l IH]; simpl; intros s; trivial.
  rewrite IH. unfold fire, runCallback.
  destruct (timer_cb t) as [|user peer].
  - now rewrite Hi, Hn.
  - destruct (sendTypingEvent_sent user peer false
                (set_now (N.max (now s) (timer_due t)) s)) as (out & -> & _).
    now rewrite Hs, Hn.
Qed.

Lemma elapse_timers (d : N) (s : State) :
  timers (elapse d s)
  = filter (fun t => negb (timer_due t <=? now s + d)) (timers s)
  /\ now (elapse d s) = now s + d.
Proof.
  unfold elapse. split; [|reflexivity].
  cbn [timers set_now].
  now rewrite (fold_fire_frame timers) by reflexivity.
Qed.

Lemma timers_bounded_incl (s s' : State) :
  now s' = now s -> incl (timers s') (timers s) ->
  timers_bounded s -> timers_bounded s'.
Proof.
  unfold timers_bounded. intros -> Hi H. exact (incl_Forall Hi H).
Qed.

Lemma clearTypingTimeout_incl (s : State) :
  incl (timers (clearTypingTimeout s)) (timers s)
  /\ now (clearTypingTimeout s) = now s.
Proof.
  unfold clearTypingTimeout, clearTimeout.
  destruct (typingTimeoutRef s); simpl; split; trivial.
  - apply incl_filter.
  - apply incl_refl.
Qed.

Lemma rerunEffect_incl (s : State) :
  incl (timers (rerunEffect s)) (timers s) /\ now (rerunEffect s) = now s.
Proof.
  unfold rerunEffect.
  destruct (subscribeEffect_timers (cleanupEffect s)) as [-> ->].
  unfold cleanupEffect. destruct (subscription s); [|split; [apply incl_refl | trivial]].
  exact (clearTypingTimeout_incl s).
Qed.

(** Starting a timer after clearing the one in the handle. *)
Lemma timers_bounded_restart (cb : Callback) (delay : N) (s : State) :
  0 < delay -> delay <= 3000 -> timers_bounded s ->
  timers_bounded
    (let '(id, s1) := setTimeout cb delay (clearTypingTimeout s) in
     set_typingTimeoutRef (Some id) s1).
Proof.
  intros H0 H3 Hb. unfold setTimeout.
  destruct (clearTypingTimeout_incl s) as [Hi Hn].
  unfold timers_bounded. cbn [timers now set_typingTimeoutRef set_nextTimerId set_timers].
  apply Forall_app. split.
  - rewrite Hn. exact (incl_Forall Hi Hb).
  - constructor; [|constructor]. cbn [timer_due]. rewrite Hn. lia.
Qed.

Lemma timers_bounded_sendTypingEvent user peer typing (s : State) :
  timers_bounded s -> timers_bounded (sendTypingEvent user peer typing s).
Proof.
  destruct (sendTypingEvent_sent user peer typing s) as (out & -> & _).
  trivial.
Qed.

Lemma timers_bounded_step (s : State) (e : Event) :
  timers_bounded s -> timers_bounded (step s e).
Proof.
  intros Hb. destruct e; simpl.
  - destruct (rerunEffect_incl (set_currentUser u s)) as [Hi Hn].
    exact (timers_bounded_incl s _ Hn Hi Hb).
  - unfold setSelectedUserId. destruct (opt_eqb v (selectedUserId s)); trivial.
    destruct (rerunEffect_incl (set_selectedUserId v s)) as [Hi Hn].
    exact (timers_bounded_incl s _ Hn Hi Hb).
  - unfold handleInputChange. destruct (Nat.ltb 0 (List.length value)).
    + apply (timers_bounded_restart
               (StopTyping (currentUser s) (selectedUserId s)) 2000); try lia.
      now apply timers_bounded_sendTypingEvent.
    + now apply timers_bounded_sendTypingEvent.
  - unfold handleSendMessage.
    destruct (selectedUserId s) as [peer|]; trivial.
    destruct (truthy (trim (messageInput s)) && truthy peer); trivial.
    exact (timers_bounded_sendTypingEvent (currentUser s) (Some peer) false s Hb).
  - exact Hb.
  - generalize (channels s). intros l. revert s Hb.
    induction l as [|ch l IH]; simpl; intros s0 Hb; trivial.
    apply IH. unfold onInsert. destruct (isRelevant ch sender_id receiver_id);
      exact Hb.
  - generalize (filter (fun ch => eqb (chan_topic ch) on_topic) (channels s)).
    intros l. revert s Hb.
    induction l as [|ch l IH]; simpl; intros s0 Hb; trivial.
    apply IH. unfold onTyping. destruct (eqb userId (chan_peer ch)); trivial.
    destruct typing; [|exact Hb].
    apply (timers_bounded_restart HideTyping 3000 (set_isTyping true s0));
      try lia. exact Hb.
  - destruct (elapse_timers dt s) as [Ht Hn].
    unfold timers_bounded in *. rewrite Ht, Hn.
    apply Forall_forall. intros t Hin. apply filter_In in Hin.
    destruct Hin as [Hin Hd]. apply negb_true_iff, N.leb_gt in Hd.
    rewrite Forall_forall in Hb. specialize (Hb t Hin). lia.
Qed.

(** X15.  In every reachable state at most one timer is pending; its handle
    is the one in [typingTimeoutRef], and it is due after now and at most
    3 seconds from now. *)
Theorem pending_timer_bounded (u0 : option jsstring) (es : list Event) :
  let s := run (init u0) es in
  (List.length (timers s) <= 1)%nat
  /\ forall t, In t (timers s) ->
       typingTimeoutRef s = Some (timer_id t)
       /\ now s < timer_due t /\ timer_due t <= now s + 3000.
Proof.
  cbv zeta.
  assert (Hb : timers_bounded (run (init u0) es)).
  { unfold run. assert (H : timers_bounded (init u0)) by constructor.
    revert H. generalize (init u0).
    induction es as [|e es IH]; simpl; intros s H; trivial.
    apply IH, timers_bounded_step, H. }
  destruct (Inv_reachable u0 es) as [Hin _].
  unfold timers_in_ref in Hin. unfold timers_bounded in Hb.
  destruct (timers (run (init u0) es)) as [|t [|t' l]].
  - split; [simpl; lia | intros t []].
  - split; [simpl; lia|]. intros t0 [<-|[]].
    split; trivial. now inversion Hb.
  - contradiction.
Qed.

(** Half a second after the keystroke at t = 0 its idle timer is due at
    t = 2000. *)
Lemma pending_timer_bounded_witness :
  let s := run (init (Some (js "U1")))
               [SelectUser (Some (js "U2")); InputChange (js "hi");
                Elapse 500] in
  let t := mkTimer 1 2000 (StopTyping (Some (js "U1")) (Some (js "U2"))) in
  typingTimeoutRef s = Some (timer_id t)
  /\ now s < timer_due t /\ timer_due t <= now s + 3000.
Proof.
  cbv zeta.
  apply (proj2 (pending_timer_bounded (Some (js "U1"))
                  [SelectUser (Some (js "U2")); InputChange (js "hi");
                   Elapse 500])).
  vm_compute. left. reflexivity.
Defined.

(* ================================================================== *)
(** ** Typing broadcasts go to the selected conversation only *)

Lemma sendTypingEvent_current (s s0 : State) (user peer : option jsstring)
    (typing : bool) :
  closure_current s user peer ->
  exists out,
    sendTypingEvent user peer typing s0 = set_sent (sent s0 ++ out) s0
    /\ Forall (to_current_conversation s) out.
Proof.
  intros Hc. unfold sendTypingEvent.
  destruct user as [u|], peer as [p|];
    try (exists []; rewrite app_nil_r; destruct s0; split;
         [reflexivity | constructor]).
  destruct (truthy p) eqn:Hp.
  - apply truthy_true in Hp. destruct (Hc u p eq_refl eq_refl Hp) as [Hu Hs].
    eexists; split; [reflexivity|]. constructor; [|constructor].
    split; [exact Hu|]. exists p. auto.
  - exists []; rewrite app_nil_r; destruct s0; split;
      [reflexivity | constructor].
Qed.

Lemma closure_current_self (s : State) :
  closure_current s (currentUser s) (selectedUserId s).
Proof. intros u p -> -> _. auto. Qed.

Lemma idle_timer_current_same (s s' : State) :
  incl (timers s') (timers s) -> same_session s s' ->
  idle_timer_current s -> idle_timer_current s'.
Proof.
  intros Hi (Hu & Hp & _) J t u p Hin Hcb Hne.
  rewrite Hu, Hp. exact (J t u p (Hi t Hin) Hcb Hne).
Qed.

Lemma idle_timer_current_restart (cb : Callback) (delay : N) (s : State) :
  cb = HideTyping \/ cb = StopTyping (currentUser s) (selectedUserId s) ->
  idle_timer_current s ->
  idle_timer_current
    (let '(id, s1) := setTimeout cb delay (clearTypingTimeout s) in
     set_typingTimeoutRef (Some id) s1).
Proof.
  intros Hcb J. unfold setTimeout.
  destruct (clearTypingTimeout_incl s) as [Hi _].
  destruct (clearTypingTimeout_session s) as (Hu & Hp & _).
  intros t u p Hin Ht Hne.
  cbn [timers currentUser selectedUserId set_typingTimeoutRef set_nextTimerId
       set_timers] in *.
  rewrite Hu, Hp. apply in_app_or in Hin. destruct Hin as [Hin|[<-|[]]].
  - exact (J t u p (Hi t Hin) Ht Hne).
  - cbn [timer_cb] in Ht. destruct Hcb as [->| ->]; [discriminate|].
    injection Ht as -> ->. auto.
Qed.

Lemma idle_timer_current_sendTypingEvent user peer typing (s : State) :
  idle_timer_current s -> idle_timer_current (sendTypingEvent user peer typing s).
Proof.
  destruct (sendTypingEvent_sent user peer typing s) as (out & -> & _).
  trivial.
Qed.

(** Re-running the effect leaves no timer that could send to the previous
    conversation. *)
Lemma idle_timer_current_rerunEffect (s0 s : State) :
  timers s = timers s0 -> subscription s = subscription s0 ->
  typingTimeoutRef s = typingTimeoutRef s0 ->
  timers_in_ref s0 -> subscription_current s0 -> idle_timer_current s0 ->
  idle_timer_current (rerunEffect s).
Proof.
  intros Ht Hs Hr Hin Hsc J.
  destruct (subscription s) as [ch|] eqn:Hsub.
  - assert (Hin' : timers_in_ref s)
      by (unfold timers_in_ref in *; now rewrite Ht, Hr).
    intros t u p Hi. rewrite (rerunEffect_clears s ch Hsub Hin') in Hi.
    destruct Hi.
  - intros t u p Hi Hcb Hne. exfalso.
    rewrite (rerunEffect_keeps s Hsub), Ht in Hi.
    destruct (J t u p Hi Hcb Hne) as [Hu Hp].
    unfold subscription_current in Hsc. rewrite Hu, Hp in Hsc.
    apply truthy_true in Hne. rewrite Hne in Hsc.
    destruct Hsc as [id Hsc]. congruence.
Qed.

Lemma idle_timer_current_step (s : State) (e : Event) :
  timers_in_ref s -> subscription_current s -> idle_timer_current s ->
  idle_timer_current (step s e).
Proof.
  intros Hin Hsc J. destruct e; simpl.
  - now apply (idle_timer_current_rerunEffect s).
  - unfold setSelectedUserId. destruct (opt_eqb v (selectedUserId s)); trivial.
    now apply (idle_timer_current_rerunEffect s).
  - unfold handleInputChange. destruct (Nat.ltb 0 (List.length value)).
    + apply (idle_timer_current_restart
               (StopTyping (currentUser s) (selectedUserId s)) 2000
               (sendTypingEvent (currentUser s) (selectedUserId s) true
                  (set_messageInput value s))).
      * right.
        destruct (sendTypingEvent_session (currentUser s) (selectedUserId s)
                    true (set_messageInput value s)) as (-> & -> & _).
        reflexivity.
      * apply idle_timer_current_sendTypingEvent. exact J.
    + apply idle_timer_current_sendTypingEvent. exact J.
  - unfold handleSendMessage.
    destruct (selectedUserId s) as [peer|] eqn:Hp; trivial.
    destruct (truthy (trim (messageInput s)) && truthy peer); trivial.
    destruct (sendTypingEvent_sent (currentUser s) (Some peer) false s)
      as (out & -> & _).
    apply (idle_timer_current_same s); trivial.
    + intros t Ht. exact Ht.
    + repeat split.
  - exact J.
  - generalize (channels s). intros l. clear Hin Hsc. revert s J.
    induction l as [|ch l IH]; simpl; intros s0 J; trivial.
    apply IH. unfold onInsert. destruct (isRelevant ch sender_id receiver_id);
      exact J.
  - generalize (filter (fun ch => eqb (chan_topic ch) on_topic) (channels s)).
    intros l. clear Hin Hsc. revert s J.
    induction l as [|ch l IH]; simpl; intros s0 J; trivial.
    apply IH. unfold onTyping. destruct (eqb userId (chan_peer ch)); trivial.
    destruct typing; [|exact J].
    apply (idle_timer_current_restart HideTyping 3000 (set_isTyping true s0));
      [now left | exact J].
  - apply (idle_timer_current_same s); trivial.
    + rewrite (proj1 (elapse_timers dt s)). apply incl_filter.
    + apply elapse_session.
Qed.

Lemma idle_timer_current_reachable (u0 : option jsstring) (es : list Event) :
  idle_timer_current (run (init u0) es).
Proof.
  induction es as [|e es IH] using rev_ind.
  - intros t u p [].
  - rewrite run_snoc. apply idle_timer_current_step; trivial.
    + apply (Inv_reachable u0 es).
    + apply subscription_current_reachable.
Qed.

Lemma insertTimer_In (t x : Timer) (l : list Timer) :
  In x (insertTimer t l) -> x = t \/ In x l.
Proof.
  induction l as [|t' l IH]; simpl.
  - intros [<-|[]]. now left.
  - destruct (timer_due t <? timer_due t'); simpl.
    + intros [<-|[<-|H]]; auto.
    + intros [<-|H]; auto. destruct (IH H); auto.
Qed.

Lemma sortTimers_In (x : Timer) (l : list Timer) :
  In x (sortTimers l) -> In x l.
Proof.
  unfold sortTimers.
  assert (G : forall acc, In x (fold_left (fun acc t => insertTimer t acc) l acc)
                          -> In x acc \/ In x l).
  { induction l as [|t l IH]; simpl; intros acc H; auto.
    destruct (IH _ H) as [H1|H1]; auto.
    destruct (insertTimer_In t x acc H1) as [->|H2]; auto. }
  intros H. destruct (G [] H) as [[]|H1]. exact H1.
Qed.

Lemma fold_fire_current (s : State) (l : list Timer) :
  (forall t user peer,
     In t l -> timer_cb t = StopTyping user peer ->
     closure_current s user peer) ->
  forall s0, exists out,
    sent (fold_left fire l s0) = sent s0 ++ out
    /\ Forall (to_current_conversation s) out.
Proof.
  induction l as [|t l IH]; simpl; intros Hl s0.
  - exists []. now rewrite app_nil_r.
  - destruct (IH (fun t' user peer Hin => Hl t' user peer (or_intror Hin))
                (fire s0 t)) as (out2 & E2 & F2).
    assert (H1 : exists out1,
               sent (fire s0 t) = sent s0 ++ out1
               /\ Forall (to_current_conversation s) out1).
    { unfold fire, runCallback. destruct (timer_cb t) as [|user peer] eqn:Hcb.
      - exists []. now rewrite app_nil_r.
      - destruct (sendTypingEvent_current s
                    (set_now (N.max (now s0) (timer_due t)) s0) user peer false
                    (Hl t user peer (or_introl eq_refl) Hcb))
          as (out & -> & F).
        now exists out. }
    destruct H1 as (out1 & E1 & F1).
    exists (out1 ++ out2). split.
    + now rewrite E2, E1, app_assoc.
    + now apply Forall_app.
Qed.

Lemma rerunEffect_sent (s : State) : sent (rerunEffect s) = sent s.
Proof.
  unfold rerunEffect, cleanupEffect, subscribeEffect, clearTypingTimeout.
  destruct s as [cu sel mi it ref sub nw tms nt chs nc lg snt inv rq]; simpl.
  destruct sub, ref, cu, sel as [p|]; simpl; trivial;
    destruct (truthy p); trivial.
Qed.

(** X16.  In every reachable state, whatever event comes next, every typing
    broadcast it sends carries the current user's id and goes to the topic of
    the conversation with the currently selected peer: an idle timer started
    for a previous peer never sends after the selection has changed. *)
Theorem broadcasts_to_current_conversation
    (u0 : option jsstring) (es : list Event) (e : Event) :
  let s := run (init u0) es in
  exists out,
    sent (step s e) = sent s ++ out
    /\ Forall (to_current_conversation s) out.
Proof.
  cbv zeta. set (s := run (init u0) es).
  assert (Z : forall s', sent s' = sent s ->
              exists out, sent s' = sent s ++ out
                          /\ Forall (to_current_conversation s) out).
  { intros s' ->. exists []. now rewrite app_nil_r. }
  destruct e; simpl.
  - apply Z. now rewrite rerunEffect_sent.
  - apply Z. unfold setSelectedUserId.
    destruct (opt_eqb v (selectedUserId s)); trivial.
    now rewrite rerunEffect_sent.
  - unfold handleInputChange.
    destruct (sendTypingEvent_current s (set_messageInput value s)
                (currentUser s) (selectedUserId s) true
                (closure_current_self s)) as (out1 & E1 & F1).
    destruct (sendTypingEvent_current s (set_messageInput value s)
                (currentUser s) (selectedUserId s) false
                (closure_current_self s)) as (out2 & E2 & F2).
    destruct (Nat.ltb 0 (List.length value)).
    + exists out1. split; trivial. unfold setTimeout.
      cbn [sent set_typingTimeoutRef set_nextTimerId set_timers].
      rewrite (clearTypingTimeout_frame sent) by reflexivity.
      now rewrite E1.
    + exists out2. split; trivial. now rewrite E2.
  - unfold handleSendMessage.
    destruct (selectedUserId s) as [peer|] eqn:Hp; [|now apply Z].
    destruct (truthy (trim (messageInput s)) && truthy peer); [|now apply Z].
    destruct (sendTypingEvent_current s s (currentUser s) (Some peer) false)
      as (out & E & F).
    { rewrite <- Hp. apply closure_current_self. }
    exists out. split; trivial. now rewrite E.
  - now apply Z.
  - apply Z. apply (frame_fold _ _ (fun s ch => onInsert_frame ch _ _ s)).
  - apply Z. apply (frame_fold _ _ (fun s ch => onTyping_frame ch _ _ s)).
  - unfold elapse. cbn [sent set_now].
    destruct (fold_fire_current s
                (sortTimers (filter (fun t => timer_due t <=? now s + dt) (timers s))))
      with (s0 := set_timers
                    (filter (fun t => negb (timer_due t <=? now s + dt)) (timers s))
                    s) as (out & E & F).
    + intros t user peer Hin Hcb u p -> -> Hne.
      apply sortTimers_In, filter_In in Hin. destruct Hin as [Hin _].
      exact (idle_timer_current_reachable u0 es t u p Hin Hcb Hne).
    + exists out. split; [exact E | exact F].
Qed.
